(** * Incremental log-collection connectors: Duo iterators and worker, Azure blob scanner

    A shallow embedding of [Duo/duo/iterators.py] and [Duo/duo/consumer.py],
    and of the blob scanner exercised by
    [Azure/tests/connector/test_azure_blob.py], together with the
    properties of the checkpointed polling engine.

    Conventions.
    - Python [int] is [Z]; Python [str] is [string]; [None] and the other
      scalars stored in checkpoints are the constructors of [value].
    - A Python [dict] used as a mapping is a [gmap string _].
    - The answers of the vendor client, of the intake and of the stop
      event are the fields of an environment record, indexed by the number
      of the call, so that the outside may answer every call differently.
    - Effects are explicit: the iterators thread the state their callback
      acts on, the worker threads a [world] holding the clock, the
      checkpoint store and the trace of everything it did.
    - Time is in seconds: readings of [time.time()] are rationals,
      durations the worker computes with [int(...)] are integers. *)

From Stdlib Require Import ZArith QArith Lia List Permutation Sorted.
From Stdlib Require Import Strings.Byte Strings.Ascii Strings.String.
From stdpp Require Import gmap strings list fin_maps pretty sorting.

Local Open Scope Z_scope.

(** ** Python values and truthiness *)

Inductive value : Type :=
| VNone
| VInt (z : Z)
| VStr (s : string).

#[global] Instance value_eq_dec : EqDecision value.
Proof. solve_decision. Defined.

(** [bool(v)] as Python evaluates it in [if v:]. *)
Definition truthy (v : value) : bool :=
  match v with
  | VNone => false
  | VInt z => negb (z =? 0)
  | VStr s => negb (String.eqb s "")
  end.

(** Keyword arguments of a call, and the dictionaries kept in checkpoints. *)
Abbreviation kwargs := (gmap string value).

(** An event record of the source: a dictionary whose ["timestamp"] entry
    is an integer epoch (the fetch contract of the time-cursor source);
    the other entries are kept in [attrs]. *)
Record event : Type := Event {
  timestamp : Z;
  attrs : gmap string value
}.

#[global] Instance event_eq_dec : EqDecision event.
Proof. solve_decision. Defined.

(** What a call to the vendor client gives back: a value, or an exception. *)
Inductive called (A : Type) : Type :=
| Got (a : A)
| Threw (err : string).
Arguments Got {A} a.
Arguments Threw {A} err.

(** What [__next__] does: return a page, raise [StopIteration], or let
    another exception through. *)
Inductive next_result : Type :=
| Page (events : list event)
| StopIteration
| Raised (err : string).

(** ** [sorted(events, key=lambda e: e["timestamp"])]

    Python's [sorted] is stable; the stable sorted arrangement of a list is
    unique, so a stable insertion sort computes the same list. *)

Fixpoint insert_by_timestamp (e : event) (l : list event) : list event :=
  match l with
  | [] => [e]
  | x :: r =>
      if timestamp e <=? timestamp x then e :: x :: r
      else x :: insert_by_timestamp e r
  end.

Definition sorted_by_timestamp (l : list event) : list event :=
  foldr insert_by_timestamp [] l.

(** ** [l[:k]] with Python's treatment of a negative bound *)

Definition slice_to {A : Type} (k : Z) (l : list A) : list A :=
  if 0 <=? k then take (Z.to_nat k) l
  else take (length l - Z.to_nat (- k))%nat l.

(** [len(...)] as a Python [int]. *)
Definition len {A : Type} (l : list A) : Z := Z.of_nat (length l).

(** ** [Duo/duo/iterators.py] *)

Section Iterators.

(** The state the checkpoint callback acts on. *)
Context {St : Type}.

Definition Callback : Type := kwargs → St → St.

(** [if self.callback: self.callback(...)], the arguments being [kw]. *)
Definition invoke (callback : option Callback) (kw : kwargs) (s : St) : St :=
  match callback with
  | Some cb => cb kw s
  | None => s
  end.

(** *** [DuoV1LogsIterator] *)

Record DuoV1LogsIterator : Type := MkV1 {
  v1_min_time : Z;
  v1_limit : Z;
  v1_callback : option Callback
}.

(** [__init__]: [self.min_time = min_time if min_time else 0]. *)
Definition DuoV1_init (min_time : option Z) (limit : Z)
    (callback : option Callback) : DuoV1LogsIterator :=
  {| v1_min_time :=
       match min_time with
       | Some m => if truthy (VInt m) then m else 0
       | None => 0
       end;
     v1_limit := limit;
     v1_callback := callback |}.

(** [__next__].  [func] is what [self.func] answers at this call:
    [len(events) > 0] and [events[-1]] are the two cases of [last]. *)
Definition DuoV1_next (func : Z → called (list event))
    (it : DuoV1LogsIterator) (s : St) : next_result * DuoV1LogsIterator * St :=
  match func (v1_min_time it) with
  | Threw err => (Raised err, it, s)
  | Got events =>
      let events := sorted_by_timestamp events in
      let events := slice_to (v1_limit it) events in
      match last events with
      | Some e =>
          let min_time := timestamp e + 1 in
          let it' := {| v1_min_time := min_time;
                        v1_limit := v1_limit it;
                        v1_callback := v1_callback it |} in
          (Page events, it',
           invoke (v1_callback it) {[ "min_time" := VInt min_time ]} s)
      | None => (StopIteration, it, s)
      end
  end.

(** *** [DuoV2LogsIterator] *)

(** The response dictionary of a paginated endpoint: its lists of records
    by field name, and its ["metadata"] dictionary when it has one. *)
Record response : Type := Response {
  resp_lists : gmap string (list event);
  resp_metadata : option kwargs
}.

(** [ITEMS_FIELD] is the class attribute the subclasses override. *)
Record DuoV2LogsIterator : Type := MkV2 {
  ITEMS_FIELD : string;
  v2_min_time : value;
  v2_next_offset : value;
  v2_limit : Z;
  v2_callback : option Callback
}.

(** [__init__]: every attribute is read with [kwargs.get], an absent one
    is [None], an absent [limit] is 1000. *)
Definition DuoV2_init (items_field : string) (callback : option Callback)
    (min_time next_offset : option value) (limit : option Z) : DuoV2LogsIterator :=
  {| ITEMS_FIELD := items_field;
     v2_min_time := default VNone min_time;
     v2_next_offset := default VNone next_offset;
     v2_limit := default 1000 limit;
     v2_callback := callback |}.

(** The keyword arguments of the call to [self.func]. *)
Definition DuoV2_request (it : DuoV2LogsIterator) : kwargs :=
  if truthy (v2_next_offset it) then
    {[ "next_offset" := v2_next_offset it; "api_version" := VInt 2;
       "limit" := VStr (pretty (v2_limit it)); "sort" := VStr "ts:asc" ]}
  else
    {[ "mintime" := v2_min_time it; "api_version" := VInt 2;
       "limit" := VStr (pretty (v2_limit it)); "sort" := VStr "ts:asc" ]}.

(** [__next__].  A response without the items field makes [len(events)]
    fail on [None], after the cursor has been handled. *)
Definition DuoV2_next (func : kwargs → called response)
    (it : DuoV2LogsIterator) (s : St) : next_result * DuoV2LogsIterator * St :=
  match func (DuoV2_request it) with
  | Threw err => (Raised err, it, s)
  | Got response =>
      let events := resp_lists response !! ITEMS_FIELD it in
      let response_metadata := default ∅ (resp_metadata response) in
      let next_offset := default VNone (response_metadata !! "next_offset") in
      let '(it', s') :=
        if truthy next_offset then
          ({| ITEMS_FIELD := ITEMS_FIELD it;
              v2_min_time := v2_min_time it;
              v2_next_offset := next_offset;
              v2_limit := v2_limit it;
              v2_callback := v2_callback it |},
           invoke (v2_callback it) {[ "next_offset" := next_offset ]} s)
        else (it, s) in
      match events with
      | None => (Raised "TypeError", it', s')
      | Some events =>
          if len events =? 0 then (StopIteration, it', s')
          else (Page events, it', s')
      end
  end.

End Iterators.

Arguments Callback St : clear implicits.
Arguments DuoV1LogsIterator St : clear implicits.
Arguments DuoV2LogsIterator St : clear implicits.

(** ** [Duo/duo/consumer.py] *)

(** The members of [LogType], as [get_events_iterator] names them. *)
Inductive LogType : Type :=
| ADMINISTRATION
| AUTHENTICATION
| TELEPHONY
| OFFLINE.

#[global] Instance LogType_eq_dec : EqDecision LogType.
Proof. solve_decision. Defined.

(** [self._log_type.name] *)
Definition log_label (lt : LogType) : string :=
  match lt with
  | ADMINISTRATION => "ADMINISTRATION"
  | AUTHENTICATION => "AUTHENTICATION"
  | TELEPHONY => "TELEPHONY"
  | OFFLINE => "OFFLINE"
  end.

(** Modelled from the spec: the values of the [LogType] members, declared
    in [duo/__init__.py]; the glossary lists the log types as
    administration, authentication, telephony and offline.  They are only
    used as keys of the checkpoint store and as labels. *)
Definition log_type_value (lt : LogType) : string :=
  match lt with
  | ADMINISTRATION => "administration"
  | AUTHENTICATION => "authentication"
  | TELEPHONY => "telephony"
  | OFFLINE => "offline"
  end.

(** Everything the worker does to the outside, in order. *)
Inductive action : Type :=
| AIsSet (answer : bool)
| ACall (lt : LogType) (request : kwargs)
| APush (events : list string)
| ALog (message level : string)
| ALogException (err message : string)
| ASleep (seconds : Z)
| AMetric (name : string) (amount : Z).

(** The outside of the worker.  The answers of the vendor client, of the
    intake and of the stop event are indexed by the number of outside
    calls made so far; [took] is how long the call with that number
    lasts.  [dumps] is [orjson.dumps(...).decode("utf-8")]; [frequency]
    and [chunk_size] come from the connector's configuration. *)
Record environment : Type := Environment {
  get_administrator_log : nat → Z → called (list event);
  get_authentication_log : nat → kwargs → called response;
  get_telephony_log : nat → kwargs → called response;
  get_offline_log : nat → Z → called (list event);
  push_events_to_intakes : nat → list string → called (list string);
  is_set : nat → bool;
  took : nat → Q;
  dumps : event → string;
  frequency : Z;
  chunk_size : Z
}.

(** What changes while the worker runs: the clock read by [time.time()],
    the connector's [context] (the checkpoint store), the trace, and the
    number of outside calls made. *)
Record world : Type := World {
  now : Q;
  context : gmap string kwargs;
  trace : list action;
  calls : nat
}.

Definition emit (a : action) (w : world) : world :=
  {| now := now w; context := context w; trace := trace w ++ [a]; calls := calls w |}.

(** An outside call: it is recorded, it lasts [took], and it is counted. *)
Definition outside (env : environment) (a : action) (w : world) : world :=
  {| now := (now w + took env (calls w))%Q;
     context := context w;
     trace := trace w ++ [a];
     calls := Datatypes.S (calls w) |}.

(** [time.sleep(seconds)] *)
Definition sleep (seconds : Z) (w : world) : world :=
  {| now := (now w + inject_Z seconds)%Q;
     context := context w;
     trace := trace w ++ [ASleep seconds];
     calls := calls w |}.

(** [int(x)] of a float: truncation toward zero. *)
Definition int_of_float (x : Q) : Z := Z.quot (Qnum x) (Zpos (Qden x)).

(** [load_checkpoint]: [cache.get(key, {"min_time": None, "next_offset": None})].
    The lock taken around the access is released before returning and has
    no effect within one thread. *)
Definition load_checkpoint (lt : LogType) (w : world) : kwargs :=
  default {[ "min_time" := VNone; "next_offset" := VNone ]}
          (context w !! log_type_value lt).

(** [save_checkpoint]: [cache[key] = offset]. *)
Definition save_checkpoint (lt : LogType) (offset : kwargs) (w : world) : world :=
  {| now := now w;
     context := <[ log_type_value lt := offset ]> (context w);
     trace := trace w;
     calls := calls w |}.

(** The iterator classes of [iterators.py] that fix the endpoint. *)
Inductive events_iterator : Type :=
| AdminLogsIterator (it : DuoV1LogsIterator world)
| AuthLogsIterator (it : DuoV2LogsIterator world)
| TelephonyLogsIterator (it : DuoV2LogsIterator world)
| OfflineLogsIterator (it : DuoV1LogsIterator world).

(** The [min_time: int] argument of the time-cursor iterators, read from
    a checkpoint entry. *)
Definition as_int (v : option value) : option Z :=
  match v with
  | Some (VInt z) => Some z
  | _ => None
  end.

(** [get_events_iterator] *)
Definition get_events_iterator (env : environment) (lt : LogType) (w : world)
    : events_iterator :=
  let last_checkpoint := load_checkpoint lt w in
  match lt with
  | ADMINISTRATION =>
      let min_time := last_checkpoint !! "min_time" in
      AdminLogsIterator
        (DuoV1_init (as_int min_time) (chunk_size env) (Some (save_checkpoint lt)))
  | AUTHENTICATION =>
      let min_time := last_checkpoint !! "min_time" in
      let next_offset := last_checkpoint !! "next_offset" in
      AuthLogsIterator
        (DuoV2_init "authlogs" (Some (save_checkpoint lt)) min_time next_offset
                    (Some (chunk_size env)))
  | TELEPHONY =>
      let min_time := last_checkpoint !! "min_time" in
      let next_offset := last_checkpoint !! "next_offset" in
      TelephonyLogsIterator
        (DuoV2_init "items" (Some (save_checkpoint lt)) min_time next_offset
                    (Some (chunk_size env)))
  | OFFLINE =>
      let min_time := last_checkpoint !! "min_time" in
      OfflineLogsIterator
        (DuoV1_init (as_int min_time) (chunk_size env) (Some (save_checkpoint lt)))
  end.

(** [next(iterator)]: the request goes out, then the iterator's
    [__next__] handles the answer. *)
Definition iterator_next (env : environment) (lt : LogType)
    (iterator : events_iterator) (w : world)
    : next_result * events_iterator * world :=
  match iterator with
  | AdminLogsIterator it =>
      let w1 := outside env (ACall lt {[ "mintime" := VInt (v1_min_time it) ]}) w in
      let '(r, it', w2) := DuoV1_next (get_administrator_log env (calls w)) it w1 in
      (r, AdminLogsIterator it', w2)
  | AuthLogsIterator it =>
      let w1 := outside env (ACall lt (DuoV2_request it)) w in
      let '(r, it', w2) := DuoV2_next (get_authentication_log env (calls w)) it w1 in
      (r, AuthLogsIterator it', w2)
  | TelephonyLogsIterator it =>
      let w1 := outside env (ACall lt (DuoV2_request it)) w in
      let '(r, it', w2) := DuoV2_next (get_telephony_log env (calls w)) it w1 in
      (r, TelephonyLogsIterator it', w2)
  | OfflineLogsIterator it =>
      let w1 := outside env (ACall lt {[ "mintime" := VInt (v1_min_time it) ]}) w in
      let '(r, it', w2) := DuoV1_next (get_offline_log env (calls w)) it w1 in
      (r, OfflineLogsIterator it', w2)
  end.

(** How a method of the worker ends: it returns, or an exception leaves it. *)
Inductive ended : Type :=
| Returned (w : world)
| Raising (err : string) (w : world).

(** [event.update({"eventtype": self._log_type})] *)
Definition tag (lt : LogType) (e : event) : event :=
  {| timestamp := timestamp e;
     attrs := <[ "eventtype" := VStr (log_type_value lt) ]> (attrs e) |}.

(** The body of the [for] loop of [fetch_batches], for the page [events]
    that [next] has just returned. *)
Definition forward_page (env : environment) (lt : LogType)
    (events : list event) (w : world) : ended :=
  let batch_start_time := now w in
  let events := map (tag lt) events in
  let batch_of_events := map (dumps env) events in
  let w := emit (AMetric "INCOMING_MESSAGES" (len events)) w in
  let pushed :=
    if 0 <? len batch_of_events then
      let w' := outside env (APush batch_of_events) w in
      match push_events_to_intakes env (calls w) batch_of_events with
      | Got _ => Returned w'
      | Threw err => Raising err w'
      end
    else Returned w in
  match pushed with
  | Raising err w => Raising err w
  | Returned w =>
      let batch_end_time := now w in
      let batch_duration := int_of_float (batch_end_time - batch_start_time) in
      let w := emit (ALog ("Fetched and forwarded " +:+ pretty (len batch_of_events)
                           +:+ " " +:+ log_label lt +:+ " events in "
                           +:+ pretty batch_duration +:+ " seconds") "info") w in
      let w := emit (AMetric "OUTCOMING_EVENTS" (len events)) w in
      let w := emit (AMetric "FORWARD_EVENTS_DURATION" batch_duration) w in
      let delta_sleep := frequency env - batch_duration in
      if 0 <? delta_sleep then
        let w := emit (ALog ("Next batch of " +:+ log_label lt
                             +:+ " events in the future. Waiting "
                             +:+ pretty delta_sleep +:+ " seconds") "info") w in
        Returned (sleep delta_sleep w)
      else Returned w
  end.

(** The end of [fetch_batches], after the [for] loop. *)
Definition after_pages (env : environment) (lt : LogType)
    (total_num_of_events : Z) (w : world) : world :=
  if total_num_of_events =? 0 then
    let time_to_sleep := frequency env in
    let w := emit (ALog ("No new " +:+ log_label lt +:+ " events. Waiting "
                         +:+ pretty time_to_sleep +:+ " seconds") "info") w in
    sleep time_to_sleep w
  else w.

(** The [for] loop of [fetch_batches].  A source that never runs dry keeps
    it going for ever, hence the fuel: [None] is "not finished yet". *)
Fixpoint for_pages (fuel : nat) (env : environment) (lt : LogType)
    (iterator : events_iterator) (total_num_of_events : Z) (w : world)
    : option ended :=
  match fuel with
  | O => None
  | Datatypes.S fuel' =>
      let '(r, iterator', w1) := iterator_next env lt iterator w in
      match r with
      | Raised err => Some (Raising err w1)
      | StopIteration => Some (Returned (after_pages env lt total_num_of_events w1))
      | Page events =>
          match forward_page env lt events w1 with
          | Raising err w2 => Some (Raising err w2)
          | Returned w2 =>
              for_pages fuel' env lt iterator' (total_num_of_events + len events) w2
          end
      end
  end.

(** [fetch_batches] *)
Definition fetch_batches (fuel : nat) (env : environment) (lt : LogType)
    (w : world) : option ended :=
  for_pages fuel env lt (get_events_iterator env lt w) 0 w.

(** [run]: [while self.running: self.fetch_batches()] inside
    [try ... except Exception], which logs and falls off the end. *)
Fixpoint run (fuel : nat) (env : environment) (lt : LogType) (w : world)
    : option world :=
  match fuel with
  | O => None
  | Datatypes.S fuel' =>
      let stopped := is_set env (calls w) in
      let w1 := outside env (AIsSet stopped) w in
      if negb stopped then
        match fetch_batches fuel' env lt w1 with
        | None => None
        | Some (Returned w2) => run fuel' env lt w2
        | Some (Raising err w2) =>
            Some (emit (ALogException err
                          ("Failed to forward " +:+ log_label lt +:+ " events")) w2)
        end
      else Some w1
  end.

(** ** The blob scanner of [AzureBlobConnector]

    The scanner lives in [connectors/azure_blob.py]; it is taken here from
    its specification and from what its tests assert.
    Instants are whole seconds since the epoch, as the tests truncate them
    ([replace(microsecond=0)]); one hour is 3600 of them. *)

(** [BlobProperties], as far as the scanner reads it. *)
Record BlobProperties : Type := Blob {
  name : string;
  last_modified : Z
}.

#[global] Instance BlobProperties_eq_dec : EqDecision BlobProperties.
Proof. solve_decision. Defined.

Definition one_hour : Z := 3600.

(** Modelled from the spec: the property [AzureBlobConnector.last_event_date],
    which is missing.  The spec gives the watermark as the checkpoint
    value, defaulting to now − 1 hour when no checkpoint exists; the test
    [test_azure_blob_connector_last_event_date] fixes three cases of it:
    no stored date gives one hour ago, a stored date equal to now gives
    that date, and a stored date twenty minutes older than one hour ago
    gives one hour ago.  [stored] is the instant the ISO-8601 string of
    the checkpoint denotes, [None] when the entry is null. *)
Definition last_event_date (current : Z) (stored : option Z) : Z :=
  let one_hour_ago := current - one_hour in
  match stored with
  | None => one_hour_ago
  | Some t => if t <? one_hour_ago then one_hour_ago else t
  end.

(** The three assertions of [test_azure_blob_connector_last_event_date],
    for a candidate [led] of the property and the instant the test runs. *)
Definition test_azure_blob_connector_last_event_date
    (led : Z → option Z → Z) (current_date : Z) : Prop :=
  let one_hour_ago := current_date - one_hour in
  led current_date None = one_hour_ago
  ∧ led current_date (Some current_date) = current_date
  ∧ led current_date (Some (one_hour_ago - 20 * 60)) = one_hour_ago.

(** Modelled from the spec: the generator [get_most_recent_blobs], which is
    missing: the blobs of the listing with [last_modified > lower_bound],
    in the order of the listing. *)
Definition get_most_recent_blobs (listing : list BlobProperties)
    (lower_bound : Z) : list BlobProperties :=
  filter (λ blob, lower_bound < last_modified blob) listing.

(** What [download_blob] returns: the path of a temporary file or the bytes,
    exactly one of the two. *)
Inductive downloaded : Type :=
| InFile (path : string)
| InMemory (content : list Byte.byte).

(** The outside of the scanner: the listing of the container, the download
    call, the temporary files, and the gzip decoder. *)
Record storage : Type := Storage {
  list_blobs : list BlobProperties;
  download_blob : string → downloaded;
  files : gmap string (list Byte.byte);
  gunzip : list Byte.byte → option (list Byte.byte)
}.

(** The gzip signature at the head of the content. *)
Definition is_gzip (content : list Byte.byte) : bool :=
  match content with
  | b0 :: b1 :: _ => (Byte.to_N b0 =? 31)%N && (Byte.to_N b1 =? 139)%N
  | _ => false
  end.

Definition continuation (b : Byte.byte) : bool :=
  let n := Byte.to_N b in (128 <=? n)%N && (n <=? 191)%N.

(** Well-formed UTF-8, as a strict decoder accepts it: shortest forms
    only, no surrogates, nothing above U+10FFFF. *)
Fixpoint utf8_valid (bs : list Byte.byte) : bool :=
  match bs with
  | [] => true
  | b0 :: r0 =>
      let n0 := Byte.to_N b0 in
      if (n0 <? 128)%N then utf8_valid r0
      else if (194 <=? n0)%N && (n0 <=? 223)%N then
        match r0 with
        | b1 :: r1 => continuation b1 && utf8_valid r1
        | _ => false
        end
      else if (224 <=? n0)%N && (n0 <=? 239)%N then
        match r0 with
        | b1 :: b2 :: r2 =>
            let n1 := Byte.to_N b1 in
            continuation b1 && continuation b2
            && (if (n0 =? 224)%N then (160 <=? n1)%N else true)
            && (if (n0 =? 237)%N then (n1 <=? 159)%N else true)
            && utf8_valid r2
        | _ => false
        end
      else if (240 <=? n0)%N && (n0 <=? 244)%N then
        match r0 with
        | b1 :: b2 :: b3 :: r3 =>
            let n1 := Byte.to_N b1 in
            continuation b1 && continuation b2 && continuation b3
            && (if (n0 =? 240)%N then (144 <=? n1)%N else true)
            && (if (n0 =? 244)%N then (n1 <=? 143)%N else true)
            && utf8_valid r3
        | _ => false
        end
      else false
  end.

(** [content.decode("utf-8")]: a Python [str] is kept as the string of its
    UTF-8 bytes, so decoding checks the bytes and keeps them. *)
Definition decode_utf8 (content : list Byte.byte) : option string :=
  if utf8_valid content then Some (string_of_list_byte content) else None.

Definition newline : ascii := ascii_of_nat 10.

(** The pieces of a text between its line feeds. *)
Fixpoint split_lines (text : string) : list string :=
  match text with
  | EmptyString => [EmptyString]
  | String c rest =>
      if Ascii.eqb c newline then EmptyString :: split_lines rest
      else match split_lines rest with
           | line :: lines => String c line :: lines
           | [] => [String c EmptyString]
           end
  end.

Definition nonempty (line : string) : bool := negb (String.eqb line "").

(** The records of a decoded text: its lines, the empty ones dropped. *)
Definition records_of_text (text : string) : list string :=
  List.filter nonempty (split_lines text).

(** The bytes a download stands for. *)
Definition raw_content (st : storage) (d : downloaded) : option (list Byte.byte) :=
  match d with
  | InFile path => files st !! path
  | InMemory content => Some content
  end.

(** The content after transparent decompression: gunzip when the bytes
    carry the gzip signature. *)
Definition plain_content (st : storage) (d : downloaded) : option (list Byte.byte) :=
  raw ← raw_content st d;
  if is_gzip raw then gunzip st raw else Some raw.

(** The records of one downloaded blob: decompress, decode, split, drop
    the empty lines.  [None] is a failed read, a failed decompression or a
    failed decoding. *)
Definition blob_records (st : storage) (d : downloaded) : option (list string) :=
  plain ← plain_content st d;
  text ← decode_utf8 plain;
  Some (records_of_text text).

(** Modelled from the spec: [get_azure_blob_data], which is missing: the
    watermark is [last_event_date]; every blob of [get_most_recent_blobs]
    is downloaded and read; the result is the records of all of them in
    order, with the new watermark, the greatest [last_modified] processed
    ([None] when no blob qualified). *)
Definition get_azure_blob_data (st : storage) (current : Z) (stored : option Z)
    : option (list string * option Z) :=
  let watermark := last_event_date current stored in
  let blobs := get_most_recent_blobs (list_blobs st) watermark in
  per_blob ← mapM (λ blob, blob_records st (download_blob st (name blob))) blobs;
  Some (concat per_blob,
        foldr (λ blob acc, Some (match acc with
                                 | Some m => Z.max (last_modified blob) m
                                 | None => last_modified blob
                                 end)) None blobs).

(** ** Vocabulary of the properties *)

(** Ascending by the ["timestamp"] field. *)
Definition by_timestamp (a b : event) : Prop := timestamp a <= timestamp b.

(** A callback that records the keyword arguments of each invocation. *)
Definition record_call : Callback (list kwargs) := λ kw calls, calls ++ [kw].

(** A time-cursor source holding [held]: it answers a request with the
    records whose timestamp is at least [mintime], in the order it holds
    them. *)
Definition since (held : list event) (mintime : Z) : called (list event) :=
  Got (List.filter (λ e, mintime <=? timestamp e) held).

(** Three records, held out of order. *)
Definition e100 : event := Event 100 {[ "action" := VStr "login" ]}.
Definition e101 : event := Event 101 {[ "action" := VStr "logout" ]}.
Definition e105 : event := Event 105 {[ "action" := VStr "login" ]}.
Definition held_events : list event := [e105; e100; e101].

(** Two answers of a paginated endpoint: a page with a cursor to the
    next one, and the empty page that follows the last one. *)
Definition page_then_more : response :=
  Response {[ "items" := [e100; e101] ]}
           (Some {[ "next_offset" := VStr "1532951895000" ]}).
Definition empty_page : response :=
  Response {[ "items" := [] ]} (Some {[ "next_offset" := VNone ]}).

(** The request of the call an iterator is about to make. *)
Definition next_request (iterator : events_iterator) : kwargs :=
  match iterator with
  | AdminLogsIterator it | OfflineLogsIterator it =>
      {[ "mintime" := VInt (v1_min_time it) ]}
  | AuthLogsIterator it | TelephonyLogsIterator it => DuoV2_request it
  end.

Definition callback_of (iterator : events_iterator) : option (Callback world) :=
  match iterator with
  | AdminLogsIterator it | OfflineLogsIterator it => v1_callback it
  | AuthLogsIterator it | TelephonyLogsIterator it => v2_callback it
  end.

(** A callback that touches nothing but the checkpoint store. *)
Definition saves_only (callback : option (Callback world)) : Prop :=
  ∀ kw w, trace (invoke callback kw w) = trace w
          ∧ now (invoke callback kw w) = now w
          ∧ calls (invoke callback kw w) = calls w.

(** The endpoint behind the offset-cursor iterator of a log type. *)
Definition paginated_log (env : environment) (lt : LogType)
    : nat → kwargs → called response :=
  match lt with
  | AUTHENTICATION => get_authentication_log env
  | _ => get_telephony_log env
  end.

(** A world to try things in: the time-cursor endpoints hold
    [held_events], the paginated ones always give [answer], the intake
    accepts everything, nobody asks the worker to stop, and the outside
    calls last what [lasting] says. *)
Definition trial (answer : response) (lasting : nat → Q) : environment :=
  {| get_administrator_log := λ _, since held_events;
     get_authentication_log := λ _ _, Got answer;
     get_telephony_log := λ _ _, Got answer;
     get_offline_log := λ _, since held_events;
     push_events_to_intakes := λ _ events, Got events;
     is_set := λ _, false;
     took := lasting;
     dumps := λ e, pretty (timestamp e);
     frequency := 5;
     chunk_size := 2 |}.

(** A worker started on 14 November 2023 at 22:13:20 UTC, with no
    checkpoint. *)
Definition fresh : world := World 1700000000 ∅ [] 0.

(** A telephony worker resumed from a checkpoint that holds a time cursor
    and no offset. *)
Definition resumed : world :=
  World 1700000000
        {[ "telephony" := {[ "min_time" := VInt 50; "next_offset" := VNone ]} ]}
        [] 0.

(** Successive calls of [__next__], the source answering the n-th call
    with the n-th function; the results of the calls are dropped, the
    iterator and the state of its callback are kept. *)
Fixpoint DuoV1_steps {St : Type} (funcs : list (Z → called (list event)))
    (it : DuoV1LogsIterator St) (s : St) : DuoV1LogsIterator St * St :=
  match funcs with
  | [] => (it, s)
  | func :: rest =>
      let '(_, it', s') := DuoV1_next func it s in DuoV1_steps rest it' s'
  end.

Fixpoint DuoV2_steps {St : Type} (funcs : list (kwargs → called response))
    (it : DuoV2LogsIterator St) (s : St) : DuoV2LogsIterator St * St :=
  match funcs with
  | [] => (it, s)
  | func :: rest =>
      let '(_, it', s') := DuoV2_next func it s in DuoV2_steps rest it' s'
  end.

(** A time-cursor source that keeps its contract: the records it returns
    are not older than the requested [mintime]. *)
Definition honest (func : Z → called (list event)) : Prop :=
  ∀ mintime events, func mintime = Got events →
                    Forall (λ e, mintime <= timestamp e) events.

(** The next_offset a response carries, [None] when it carries none. *)
Definition next_offset_of (resp : response) : value :=
  default VNone (default ∅ (resp_metadata resp) !! "next_offset").

(** An empty page that repeats the cursor of the page before it. *)
Definition stalled_page : response :=
  Response {[ "items" := [] ]}
           (Some {[ "next_offset" := VStr "1532951895000" ]}).

(** The listing of [test_azure_blob_get_most_recent_blob]: three blobs
    modified at the current date, five and seven minutes later. *)
Definition properties1 : BlobProperties := Blob "alpha" 1700000000.
Definition properties2 : BlobProperties := Blob "beta" (1700000000 + 5 * 60).
Definition properties3 : BlobProperties := Blob "gamma" (1700000000 + 7 * 60).
Definition expected_blobs : list BlobProperties :=
  [properties1; properties2; properties3].


Definition LF : string := String newline EmptyString.

(** The content [test_azure_blob_get_azure_blob_data_4] writes: the record,
    five line feeds, the record, a line feed, the record, a line feed. *)
Definition thrice (R : string) : string :=
  R +:+ LF +:+ LF +:+ LF +:+ LF +:+ LF +:+ R +:+ LF +:+ R +:+ LF.

(** A stand-in for the gzip codec, to try the scanner with: the signature
    in front of the bytes, and its removal. *)
Definition signed (content : list Byte.byte) : list Byte.byte :=
  Byte.x1f :: Byte.x8b :: content.
Definition unsigned (content : list Byte.byte) : option (list Byte.byte) :=
  Some (drop 2 content).

(** A container with one temporary file, holding the compressed form of
    three copies of a record among blank lines. *)
Definition one_record : string := "2023-11-14T22:13:20Z login alice".
Definition container : storage :=
  {| list_blobs := [properties2];
     download_blob := λ _, InFile "/tmp/tmpk3v9";
     files := {[ "/tmp/tmpk3v9" := signed (list_byte_of_string (thrice one_record)) ]};
     gunzip := unsigned |}.

(** Outside calls of a worker whose fetch lasts five seconds and whose
    push to the intake lasts one second. *)
Definition slow_fetch (n : nat) : Q :=
  match n with
  | O => 5
  | Datatypes.S O => 1
  | _ => 0
  end.

(** The world a method leaves behind. *)
Definition world_of (e : ended) : world :=
  match e with
  | Returned w => w
  | Raising _ w => w
  end.



Definition pauses (a : action) : bool :=
  match a with
  | ASleep _ => true
  | _ => false
  end.

(** The message [run] logs the exception with. *)
Definition failure_message (lt : LogType) : string :=
  "Failed to forward " +:+ log_label lt +:+ " events".


(** A world whose intake refuses everything. *)
Definition refusing : environment :=
  {| get_administrator_log := λ _, since held_events;
     get_authentication_log := λ _ _, Got empty_page;
     get_telephony_log := λ _ _, Got empty_page;
     get_offline_log := λ _, since held_events;
     push_events_to_intakes := λ _ _, Threw "ConnectionError";
     is_set := λ _, false;
     took := λ _, 0%Q;
     dumps := λ e, pretty (timestamp e);
     frequency := 5;
     chunk_size := 2 |}.


(** The pages that successive calls of [__next__] return, the source
    answering the n-th call with the n-th function; a call that raises
    contributes no page. *)
Fixpoint DuoV1_pages {St : Type} (funcs : list (Z → called (list event)))
    (it : DuoV1LogsIterator St) (s : St) : list (list event) :=
  match funcs with
  | [] => []
  | func :: rest =>
      let '(r, it', s') := DuoV1_next func it s in
      match r with
      | Page events => events :: DuoV1_pages rest it' s'
      | _ => DuoV1_pages rest it' s'
      end
  end.

(** Three records with one timestamp, and a source holding them. *)
Definition tie_a : event := Event 100 {[ "user" := VStr "alice" ]}.
Definition tie_b : event := Event 100 {[ "user" := VStr "bob" ]}.
Definition tie_c : event := Event 100 {[ "user" := VStr "carol" ]}.
Definition tied_events : list event := [tie_a; tie_b; tie_c].

(** Strictly ascending by timestamp. *)
Definition strictly_by_timestamp (a b : event) : Prop := timestamp a < timestamp b.

(** An answer of a paginated endpoint that lacks the list of items. *)
Definition headless_page : response :=
  Response ∅ (Some {[ "next_offset" := VStr "1532951895000" ]}).

(** An answer with items and no cursor to a next page. *)
Definition lone_page : response :=
  Response {[ "items" := [e100; e101] ]} (Some ∅).

(** The checkpoint store is enough to resume [iterator]: it is an
    iterator of the class [get_events_iterator] picks for the log type,
    it saves with [save_checkpoint], and the iterator built afresh from
    the store is about to make the same request. *)
Definition resumable (env : environment) (lt : LogType)
    (iterator : events_iterator) (w : world) : Prop :=
  callback_of iterator = Some (save_checkpoint lt)
  ∧ next_request (get_events_iterator env lt w) = next_request iterator
  ∧ match lt, iterator with
    | ADMINISTRATION, AdminLogsIterator _ => True
    | OFFLINE, OfflineLogsIterator _ => True
    | AUTHENTICATION, AuthLogsIterator it => v2_limit it = chunk_size env
    | TELEPHONY, TelephonyLogsIterator it => v2_limit it = chunk_size env
    | _, _ => False
    end.

(** The batches pushed to the intake, among the actions of a trace. *)
Definition pushed (tr : list action) : list (list string) :=
  omap (λ a, match a with APush batch => Some batch | _ => None end) tr.

(** The message of the idle pass. *)
Definition idle_message (env : environment) (lt : LogType) : string :=
  "No new " +:+ log_label lt +:+ " events. Waiting "
  +:+ pretty (frequency env) +:+ " seconds".

(** A property of actions that holds of everything a worker can do, when
    it holds of these: a consultation, a call, a push of a batch that is
    not empty, a log line, the logging of an exception, a pause, a metric. *)
Definition holds_of_worker_actions (P : action → Prop) : Prop :=
  (∀ answer, P (AIsSet answer))
  ∧ (∀ lt request, P (ACall lt request))
  ∧ (∀ batch, batch ≠ [] → P (APush batch))
  ∧ (∀ message level, P (ALog message level))
  ∧ (∀ err message, P (ALogException err message))
  ∧ (∀ seconds, P (ASleep seconds))
  ∧ (∀ name amount, P (AMetric name amount)).

(** * Properties *)

(** ** The stable sort *)

Lemma insert_by_timestamp_perm (e : event) (l : list event) :
  insert_by_timestamp e l ≡ₚ e :: l.
Proof.
  induction l as [|x r IH]; simpl; [done|].
  destruct (timestamp e <=? timestamp x); [done|].
  rewrite IH. apply Permutation_swap.
Qed.

Lemma sorted_by_timestamp_perm (l : list event) :
  sorted_by_timestamp l ≡ₚ l.
Proof.
  induction l as [|x r IH]; simpl; [done|].
  rewrite insert_by_timestamp_perm. by rewrite IH.
Qed.

Lemma insert_by_timestamp_sorted (e : event) (l : list event) :
  StronglySorted by_timestamp l → StronglySorted by_timestamp (insert_by_timestamp e l).
Proof.
  induction 1 as [|x r Hr IH Hx]; simpl.
  - repeat constructor.
  - destruct (Z.leb_spec (timestamp e) (timestamp x)) as [Hle|Hgt].
    + constructor; [by constructor|].
      constructor; [done|].
      eapply Forall_impl; [exact Hx|].
      unfold by_timestamp. intros y Hy. lia.
    + constructor; [done|].
      rewrite insert_by_timestamp_perm.
      constructor; [unfold by_timestamp; lia | done].
Qed.

Lemma sorted_by_timestamp_sorted (l : list event) :
  StronglySorted by_timestamp (sorted_by_timestamp l).
Proof.
  induction l as [|x r IH]; simpl; [constructor|].
  by apply insert_by_timestamp_sorted.
Qed.

(** Stability: records with the same timestamp keep the order of the input. *)
Lemma insert_by_timestamp_stable (t : Z) (e : event) (l : list event) :
  filter (λ x, timestamp x = t) (insert_by_timestamp e l)
  = filter (λ x, timestamp x = t) (e :: l).
Proof.
  induction l as [|x r IH]; simpl; [done|].
  destruct (Z.leb_spec (timestamp e) (timestamp x)) as [Hle|Hgt]; [done|].
  rewrite filter_cons, IH, !filter_cons.
  repeat case_decide; try done; lia.
Qed.

Lemma sorted_by_timestamp_stable (t : Z) (l : list event) :
  filter (λ x, timestamp x = t) (sorted_by_timestamp l)
  = filter (λ x, timestamp x = t) l.
Proof.
  induction l as [|x r IH]; simpl; [done|].
  rewrite insert_by_timestamp_stable, !filter_cons. by rewrite IH.
Qed.

Lemma slice_to_nonneg {A : Type} (k : Z) (l : list A) :
  0 <= k → slice_to k l = take (Z.to_nat k) l.
Proof. intros Hk. unfold slice_to. by destruct (Z.leb_spec 0 k); [|lia]. Qed.

(** With a negative bound the slice drops records from the end. *)
Lemma slice_to_negative :
  slice_to (-1) [e100; e101; e105] = [e100; e101].
Proof. reflexivity. Qed.

Lemma slice_to_sublist {A : Type} (k : Z) (l : list A) :
  slice_to k l `sublist_of` l.
Proof. unfold slice_to. destruct (0 <=? k); apply sublist_take. Qed.

Lemma last_nonempty {A : Type} (l : list A) :
  l ≠ [] → ∃ x, last l = Some x.
Proof.
  intros Hl. destruct (last l) as [x|] eqn:E; [by eexists|].
  by apply last_None in E.
Qed.

(** ** The time-cursor iterator *)

(** C1.  A fetch step of [DuoV1LogsIterator.__next__] with a non-negative
    [limit]: the records the source returns for [min_time] = the cursor are
    sorted ascending by timestamp (a stable rearrangement of them) and cut
    to the first [limit]; when this page is not empty the cursor becomes
    the timestamp of its last record plus one, the callback is invoked with
    that cursor and the page is returned; when the page is empty, and so
    when the fetch returned nothing, [StopIteration] is raised and neither
    the cursor nor the callback's state changes.  On records with
    timestamps 100, 101, 105 and [limit] 2 the steps return [100, 101]
    (cursor 102), then [105], then raise [StopIteration]. *)
Theorem DuoV1_next_fetch_step :
  (∀ (St : Type) (func : Z → called (list event))
     (it : DuoV1LogsIterator St) (s : St) (events : list event),
     0 <= v1_limit it →
     func (v1_min_time it) = Got events →
     let ordered := sorted_by_timestamp events in
     let page := take (Z.to_nat (v1_limit it)) ordered in
     ordered ≡ₚ events
     ∧ StronglySorted by_timestamp ordered
     ∧ (∀ t, filter (λ x, timestamp x = t) ordered
             = filter (λ x, timestamp x = t) events)
     ∧ (page ≠ [] →
        ∃ e, last page = Some e
             ∧ DuoV1_next func it s
               = (Page page,
                  MkV1 (timestamp e + 1) (v1_limit it) (v1_callback it),
                  invoke (v1_callback it)
                         {[ "min_time" := VInt (timestamp e + 1) ]} s))
     ∧ (page = [] → DuoV1_next func it s = (StopIteration, it, s))
     ∧ (events = [] → DuoV1_next func it s = (StopIteration, it, s)))
  ∧ (let it0 := DuoV1_init None 2 (Some record_call) in
     let it1 := MkV1 102 2 (Some record_call) in
     let it2 := MkV1 106 2 (Some record_call) in
     let s1 := [ {[ "min_time" := VInt 102 ]} ] in
     let s2 := s1 ++ [ {[ "min_time" := VInt 106 ]} ] in
     DuoV1_next (since held_events) it0 [] = (Page [e100; e101], it1, s1)
     ∧ DuoV1_next (since held_events) it1 s1 = (Page [e105], it2, s2)
     ∧ DuoV1_next (since held_events) it2 s2 = (StopIteration, it2, s2)).
Proof.
  split; [|by vm_compute].
  intros St func it s events Hlimit Hfunc ordered page.
  assert (Hnext : DuoV1_next func it s
    = match last page with
      | Some e => (Page page,
                   MkV1 (timestamp e + 1) (v1_limit it) (v1_callback it),
                   invoke (v1_callback it)
                          {[ "min_time" := VInt (timestamp e + 1) ]} s)
      | None => (StopIteration, it, s)
      end).
  { unfold DuoV1_next. rewrite Hfunc. cbv zeta.
    rewrite slice_to_nonneg by done. done. }
  split; [apply sorted_by_timestamp_perm|].
  split; [apply sorted_by_timestamp_sorted|].
  split; [intros t; apply sorted_by_timestamp_stable|].
  split; [|split].
  - intros Hpage. destruct (last_nonempty page Hpage) as [e He].
    exists e. split; [done|]. by rewrite Hnext, He.
  - intros Hpage. by rewrite Hnext, Hpage.
  - intros ->. rewrite Hnext. subst page ordered. simpl.
    by rewrite take_nil.
Qed.

Lemma DuoV1_next_fetch_step_witness :
  0 <= v1_limit (DuoV1_init (St := list kwargs) None 2 (Some record_call))
  ∧ since held_events 0 = Got held_events
  ∧ sorted_by_timestamp held_events ≡ₚ held_events
  ∧ DuoV1_next (since held_events) (DuoV1_init None 2 (Some record_call)) []
    = (Page [e100; e101], MkV1 102 2 (Some record_call),
       [ {[ "min_time" := VInt 102 ]} ]).
Proof.
  assert (H0 : 0 <= v1_limit (DuoV1_init (St := list kwargs) None 2 (Some record_call)))
    by (simpl; lia).
  assert (H1 : since held_events
                 (v1_min_time (DuoV1_init (St := list kwargs) None 2 (Some record_call)))
               = Got held_events) by reflexivity.
  destruct (proj1 DuoV1_next_fetch_step (list kwargs) (since held_events)
              (DuoV1_init None 2 (Some record_call)) [] held_events H0 H1)
    as (Hperm & _ & _ & Hpage & _).
  split; [exact H0|]. split; [exact H1|]. split; [exact Hperm|].
  destruct Hpage as (e & He & Hnext); [by vm_compute|].
  rewrite Hnext. vm_compute in He. injection He as <-. reflexivity.
Defined.

(** ** The offset-cursor iterator *)

Lemma DuoV2_request_offset {St : Type} (it : DuoV2LogsIterator St) :
  truthy (v2_next_offset it) = true →
  DuoV2_request it !! "next_offset" = Some (v2_next_offset it)
  ∧ DuoV2_request it !! "mintime" = None.
Proof. intros H. unfold DuoV2_request. rewrite H. by simplify_map_eq. Qed.

Lemma DuoV2_request_mintime {St : Type} (it : DuoV2LogsIterator St) :
  truthy (v2_next_offset it) = false →
  DuoV2_request it !! "mintime" = Some (v2_min_time it)
  ∧ DuoV2_request it !! "next_offset" = None.
Proof. intros H. unfold DuoV2_request. rewrite H. by simplify_map_eq. Qed.

Lemma DuoV2_request_fixed {St : Type} (it : DuoV2LogsIterator St) :
  DuoV2_request it !! "api_version" = Some (VInt 2)
  ∧ DuoV2_request it !! "limit" = Some (VStr (pretty (v2_limit it)))
  ∧ DuoV2_request it !! "sort" = Some (VStr "ts:asc").
Proof.
  unfold DuoV2_request. destruct (truthy (v2_next_offset it)); by simplify_map_eq.
Qed.

(** C2.  A fetch step of [DuoV2LogsIterator.__next__]: when a next_offset
    is known (not [None], not empty) the source is called with it, otherwise
    with [mintime] = the stored [min_time], and always with api_version 2,
    the configured limit as a string and sort "ts:asc"; when the metadata
    of the response holds a next_offset (not [None], not empty) it becomes
    the cursor and the callback is invoked with it, otherwise cursor and
    callback state are left alone; the step raises [StopIteration] exactly
    when the returned list of items is empty, whatever the next_offset of
    this response or of an earlier one, and returns the items otherwise.
    A page with a next_offset followed by an empty page without one: the
    first step returns the page and saves the cursor, the second one calls
    the source with that cursor and raises [StopIteration]. *)
Theorem DuoV2_next_fetch_step :
  (∀ (St : Type) (func : kwargs → called response)
     (it : DuoV2LogsIterator St) (s : St),
     (truthy (v2_next_offset it) = true →
      DuoV2_request it !! "next_offset" = Some (v2_next_offset it)
      ∧ DuoV2_request it !! "mintime" = None)
     ∧ (truthy (v2_next_offset it) = false →
        DuoV2_request it !! "mintime" = Some (v2_min_time it)
        ∧ DuoV2_request it !! "next_offset" = None)
     ∧ DuoV2_request it !! "api_version" = Some (VInt 2)
     ∧ DuoV2_request it !! "limit" = Some (VStr (pretty (v2_limit it)))
     ∧ DuoV2_request it !! "sort" = Some (VStr "ts:asc")
     ∧ ∀ (resp : response) (events : list event),
         func (DuoV2_request it) = Got resp →
         resp_lists resp !! ITEMS_FIELD it = Some events →
         let next_offset :=
           default VNone (default ∅ (resp_metadata resp) !! "next_offset") in
         let it' :=
           if truthy next_offset
           then MkV2 (ITEMS_FIELD it) (v2_min_time it) next_offset
                     (v2_limit it) (v2_callback it)
           else it in
         let s' :=
           if truthy next_offset
           then invoke (v2_callback it) {[ "next_offset" := next_offset ]} s
           else s in
         DuoV2_next func it s
         = (match events with [] => StopIteration | _ => Page events end, it', s')
         ∧ ((DuoV2_next func it s).1.1 = StopIteration ↔ events = []))
  ∧ (let it0 := DuoV2_init "items" (Some record_call) (Some (VInt 50)) None (Some 1000) in
     let it1 := MkV2 "items" (VInt 50) (VStr "1532951895000") 1000 (Some record_call) in
     let s1 := [ {[ "next_offset" := VStr "1532951895000" ]} ] in
     DuoV2_next (λ _, Got page_then_more) it0 [] = (Page [e100; e101], it1, s1)
     ∧ DuoV2_request it1 !! "next_offset" = Some (VStr "1532951895000")
     ∧ DuoV2_next (λ _, Got empty_page) it1 s1 = (StopIteration, it1, s1)).
Proof.
  split; [|by vm_compute].
  intros St func it s.
  split; [apply DuoV2_request_offset|].
  split; [apply DuoV2_request_mintime|].
  destruct (DuoV2_request_fixed it) as (Hv & Hl & Hs).
  do 3 (split; [done|]).
  intros resp events Hfunc Hitems next_offset it' s'.
  assert (Hnext : DuoV2_next func it s
    = (match events with [] => StopIteration | _ => Page events end, it', s')).
  { unfold DuoV2_next. rewrite Hfunc, Hitems. cbv zeta.
    fold next_offset. subst it' s'.
    destruct (truthy next_offset); by destruct events. }
  split; [exact Hnext|].
  rewrite Hnext. simpl. by destruct events.
Qed.

Lemma DuoV2_next_fetch_step_witness :
  truthy (VStr "1532951895000") = true
  ∧ resp_lists empty_page !! "items" = Some []
  ∧ DuoV2_request (MkV2 (St := list kwargs) "items" (VInt 50)
                        (VStr "1532951895000") 1000 (Some record_call))
      !! "next_offset" = Some (VStr "1532951895000")
  ∧ (DuoV2_next (λ _, Got empty_page)
       (MkV2 "items" (VInt 50) (VStr "1532951895000") 1000 (Some record_call))
       [ {[ "next_offset" := VStr "1532951895000" ]} ]).1.1 = StopIteration.
Proof.
  assert (H0 : truthy (VStr "1532951895000") = true) by reflexivity.
  assert (H1 : resp_lists empty_page !! "items" = Some (@nil event)) by reflexivity.
  destruct (proj1 DuoV2_next_fetch_step (list kwargs) (λ _, Got empty_page)
              (MkV2 "items" (VInt 50) (VStr "1532951895000") 1000 (Some record_call))
              [ {[ "next_offset" := VStr "1532951895000" ]} ])
    as (Hoff & _ & _ & _ & _ & Hresp).
  destruct (Hoff H0) as [Hreq _].
  destruct (Hresp empty_page [] eq_refl H1) as [_ Hstop].
  split; [exact H0|]. split; [exact H1|]. split; [exact Hreq|].
  apply Hstop. reflexivity.
Defined.

(** ** What a fetch does to the world *)

Lemma saves_only_save_checkpoint (lt : LogType) :
  saves_only (Some (save_checkpoint lt)).
Proof. by intros kw w. Qed.

Lemma DuoV1_next_world (func : Z → called (list event))
    (it : DuoV1LogsIterator world) (w : world) :
  saves_only (v1_callback it) →
  trace (DuoV1_next func it w).2 = trace w
  ∧ now (DuoV1_next func it w).2 = now w
  ∧ calls (DuoV1_next func it w).2 = calls w
  ∧ v1_callback (DuoV1_next func it w).1.2 = v1_callback it.
Proof.
  intros Hcb. unfold DuoV1_next.
  destruct (func (v1_min_time it)) as [events|err]; [|done].
  cbv zeta. destruct (last _) as [e|]; [|done]. simpl.
  destruct (Hcb {[ "min_time" := VInt (timestamp e + 1) ]} w) as (? & ? & ?).
  done.
Qed.

Lemma DuoV2_next_world (func : kwargs → called response)
    (it : DuoV2LogsIterator world) (w : world) :
  saves_only (v2_callback it) →
  trace (DuoV2_next func it w).2 = trace w
  ∧ now (DuoV2_next func it w).2 = now w
  ∧ calls (DuoV2_next func it w).2 = calls w
  ∧ v2_callback (DuoV2_next func it w).1.2 = v2_callback it.
Proof.
  intros Hcb. unfold DuoV2_next.
  destruct (func (DuoV2_request it)) as [resp|err]; [|done].
  cbv zeta.
  set (off := default VNone (default ∅ (resp_metadata resp) !! "next_offset")).
  destruct (Hcb {[ "next_offset" := off ]} w) as (? & ? & ?).
  destruct (truthy off), (resp_lists resp !! ITEMS_FIELD it) as [events|];
    try destruct (len events =? 0); done.
Qed.

(** A fetch adds the request to the trace and nothing else, lasts what the
    call lasts, counts as one call, and keeps the iterator's callback. *)
Lemma iterator_next_world (env : environment) (lt : LogType)
    (iterator : events_iterator) (w : world) :
  saves_only (callback_of iterator) →
  trace (iterator_next env lt iterator w).2
    = trace w ++ [ACall lt (next_request iterator)]
  ∧ now (iterator_next env lt iterator w).2 = (now w + took env (calls w))%Q
  ∧ calls (iterator_next env lt iterator w).2 = Datatypes.S (calls w)
  ∧ callback_of (iterator_next env lt iterator w).1.2 = callback_of iterator.
Proof.
  intros Hcb. destruct iterator as [it|it|it|it]; simpl in *.
  - pose proof (DuoV1_next_world (get_administrator_log env (calls w)) it
                  (outside env (ACall lt {[ "mintime" := VInt (v1_min_time it) ]}) w) Hcb) as H.
    destruct (DuoV1_next _ it _) as [[r it'] w']. exact H.
  - pose proof (DuoV2_next_world (get_authentication_log env (calls w)) it
                  (outside env (ACall lt (DuoV2_request it)) w) Hcb) as H.
    destruct (DuoV2_next _ it _) as [[r it'] w']. exact H.
  - pose proof (DuoV2_next_world (get_telephony_log env (calls w)) it
                  (outside env (ACall lt (DuoV2_request it)) w) Hcb) as H.
    destruct (DuoV2_next _ it _) as [[r it'] w']. exact H.
  - pose proof (DuoV1_next_world (get_offline_log env (calls w)) it
                  (outside env (ACall lt {[ "mintime" := VInt (v1_min_time it) ]}) w) Hcb) as H.
    destruct (DuoV1_next _ it _) as [[r it'] w']. exact H.
Qed.

Lemma get_events_iterator_callback (env : environment) (lt : LogType) (w : world) :
  callback_of (get_events_iterator env lt w) = Some (save_checkpoint lt).
Proof. by destruct lt. Qed.

Lemma get_events_iterator_saves_only (env : environment) (lt : LogType) (w : world) :
  saves_only (callback_of (get_events_iterator env lt w)).
Proof. rewrite get_events_iterator_callback. apply saves_only_save_checkpoint. Qed.

Lemma load_checkpoint_absent (lt : LogType) (w : world) :
  context w !! log_type_value lt = None →
  load_checkpoint lt w = {[ "min_time" := VNone; "next_offset" := VNone ]}.
Proof. intros H. unfold load_checkpoint. by rewrite H. Qed.

(** The request of the first fetch of a worker without a checkpoint. *)
Lemma first_request_without_checkpoint (env : environment) (lt : LogType) (w : world) :
  context w !! log_type_value lt = None →
  next_request (get_events_iterator env lt w)
  = match lt with
    | ADMINISTRATION | OFFLINE => {[ "mintime" := VInt 0 ]}
    | AUTHENTICATION | TELEPHONY =>
        {[ "mintime" := VNone; "api_version" := VInt 2;
           "limit" := VStr (pretty (chunk_size env)); "sort" := VStr "ts:asc" ]}
    end.
Proof.
  intros H. unfold get_events_iterator.
  rewrite (load_checkpoint_absent lt w H).
  destruct lt; reflexivity.
Qed.

(** ** The starting point without a checkpoint *)


(** Whatever passes the test moves a stored date that is eighty minutes
    old forward. *)
Lemma tested_last_event_date_fast_forwards (led : Z → option Z → Z) (current_date : Z) :
  test_azure_blob_connector_last_event_date led current_date →
  led current_date (Some (current_date - one_hour - 20 * 60))
  ≠ current_date - one_hour - 20 * 60.
Proof. intros (_ & _ & H). rewrite H. lia. Qed.

(** C3, as stated, fails for the Duo worker: started without a checkpoint
    at 1700000000, the administration worker makes its first call with
    [mintime] 0, not with 1700000000 − 3600. *)
Lemma duo_first_fetch_not_one_hour_ago :
  context fresh !! log_type_value ADMINISTRATION = None
  ∧ trace (iterator_next (trial empty_page (λ _, 0%Q)) ADMINISTRATION
             (get_events_iterator (trial empty_page (λ _, 0%Q)) ADMINISTRATION fresh)
             fresh).2
    = [ACall ADMINISTRATION {[ "mintime" := VInt 0 ]}]
  ∧ ({[ "mintime" := VInt 0 ]} : kwargs)
    ≠ {[ "mintime" := VInt (int_of_float (now fresh) - one_hour) ]}.
Proof.
  split; [done|]. split; [by vm_compute|].
  intros H. apply (f_equal (λ m : kwargs, m !! "mintime")) in H.
  vm_compute in H. discriminate H.
Qed.

(** C3, amended.  Without a checkpoint the blob scanner's watermark is
    now − 1 hour.  The Duo worker does not look at the clock: its first
    call is made with [mintime] 0 for the administration and offline logs,
    and with [mintime] [None] (and no next_offset) for the authentication
    and telephony logs. *)
Theorem starting_point_without_checkpoint :
  (∀ current : Z, last_event_date current None = current - one_hour)
  ∧ (∀ (env : environment) (lt : LogType) (w : world),
       context w !! log_type_value lt = None →
       trace (iterator_next env lt (get_events_iterator env lt w) w).2
       = trace w ++
         [ACall lt
            match lt with
            | ADMINISTRATION | OFFLINE => {[ "mintime" := VInt 0 ]}
            | AUTHENTICATION | TELEPHONY =>
                {[ "mintime" := VNone; "api_version" := VInt 2;
                   "limit" := VStr (pretty (chunk_size env));
                   "sort" := VStr "ts:asc" ]}
            end]).
Proof.
  split; [done|].
  intros env lt w Habsent.
  destruct (iterator_next_world env lt (get_events_iterator env lt w) w
              (get_events_iterator_saves_only env lt w)) as (Htrace & _).
  rewrite Htrace. by rewrite first_request_without_checkpoint.
Qed.

Lemma starting_point_without_checkpoint_witness :
  context fresh !! log_type_value OFFLINE = None
  ∧ trace (iterator_next (trial empty_page (λ _, 0%Q)) OFFLINE
             (get_events_iterator (trial empty_page (λ _, 0%Q)) OFFLINE fresh)
             fresh).2
    = trace fresh ++ [ACall OFFLINE {[ "mintime" := VInt 0 ]}].
Proof.
  assert (H : context fresh !! log_type_value OFFLINE = None) by reflexivity.
  split; [exact H|].
  exact (proj2 starting_point_without_checkpoint
           (trial empty_page (λ _, 0%Q)) OFFLINE fresh H).
Defined.

(** ** The watermark of a stored checkpoint *)



(** ** [save_checkpoint] *)

(** The callback state after a step of the offset-cursor iterator that got
    an answer. *)
Lemma DuoV2_next_state {St : Type} (func : kwargs → called response)
    (it : DuoV2LogsIterator St) (s : St) (resp : response) :
  func (DuoV2_request it) = Got resp →
  (DuoV2_next func it s).2
  = let next_offset :=
      default VNone (default ∅ (resp_metadata resp) !! "next_offset") in
    if truthy next_offset
    then invoke (v2_callback it) {[ "next_offset" := next_offset ]} s
    else s.
Proof.
  intros Hfunc. unfold DuoV2_next. rewrite Hfunc. cbv zeta.
  destruct (truthy _), (resp_lists resp !! ITEMS_FIELD it) as [events|];
    try destruct (len events =? 0); done.
Qed.

(** C10.  [save_checkpoint] stores under the key of the log type exactly
    the keyword arguments it is given, and leaves the other keys alone;
    whatever was stored under the key before is gone.  So when the
    offset-cursor iterator of the authentication or telephony worker gets
    a next_offset and invokes the callback with it alone, the checkpoint
    stored for the log type is the single entry next_offset, without a
    min_time. *)
Theorem save_checkpoint_replaces_mapping :
  (∀ (lt : LogType) (offset : kwargs) (w : world),
     context (save_checkpoint lt offset w) !! log_type_value lt = Some offset
     ∧ ∀ key, key ≠ log_type_value lt →
              context (save_checkpoint lt offset w) !! key = context w !! key)
  ∧ (∀ (env : environment) (lt : LogType) (w : world) (resp : response) (off : value),
       lt = AUTHENTICATION ∨ lt = TELEPHONY →
       paginated_log env lt (calls w) (next_request (get_events_iterator env lt w))
       = Got resp →
       default ∅ (resp_metadata resp) !! "next_offset" = Some off →
       truthy off = true →
       context (iterator_next env lt (get_events_iterator env lt w) w).2
         !! log_type_value lt
       = Some {[ "next_offset" := off ]}
       ∧ ({[ "next_offset" := off ]} : kwargs) !! "min_time" = None).
Proof.
  split.
  - intros lt offset w. simpl. split; [apply lookup_insert_eq|].
    intros key Hkey. by apply lookup_insert_ne.
  - intros env lt w resp off Hlt Hfunc Hoff Htruthy.
    split; [|done].
    destruct Hlt as [-> | ->]; simpl in Hfunc |- *.
    + match goal with
      | |- context [DuoV2_next ?f ?it ?w1] =>
          pose proof (DuoV2_next_state f it w1 resp Hfunc) as Hs;
          destruct (DuoV2_next f it w1) as [[r it'] w']
      end.
      simpl in Hs |- *. rewrite Hs, Hoff. simpl. rewrite Htruthy. simpl.
      apply lookup_insert_eq.
    + match goal with
      | |- context [DuoV2_next ?f ?it ?w1] =>
          pose proof (DuoV2_next_state f it w1 resp Hfunc) as Hs;
          destruct (DuoV2_next f it w1) as [[r it'] w']
      end.
      simpl in Hs |- *. rewrite Hs, Hoff. simpl. rewrite Htruthy. simpl.
      apply lookup_insert_eq.
Qed.

Lemma save_checkpoint_replaces_mapping_witness :
  context resumed !! log_type_value TELEPHONY
  = Some {[ "min_time" := VInt 50; "next_offset" := VNone ]}
  ∧ context (iterator_next (trial page_then_more (λ _, 0%Q)) TELEPHONY
               (get_events_iterator (trial page_then_more (λ _, 0%Q)) TELEPHONY resumed)
               resumed).2
      !! log_type_value TELEPHONY
    = Some {[ "next_offset" := VStr "1532951895000" ]}
  ∧ ({[ "next_offset" := VStr "1532951895000" ]} : kwargs) !! "min_time" = None.
Proof.
  split; [reflexivity|].
  apply (proj2 save_checkpoint_replaces_mapping
           (trial page_then_more (λ _, 0%Q)) TELEPHONY resumed page_then_more
           (VStr "1532951895000")).
  - right. reflexivity.
  - reflexivity.
  - reflexivity.
  - reflexivity.
Defined.

(** ** Checkpoints over several steps *)

(** One step of the time-cursor iterator on an honest source: nothing
    changes, or the cursor grows and is saved. *)
Lemma DuoV1_next_forward (func : Z → called (list event))
    (it : DuoV1LogsIterator (list kwargs)) (s : list kwargs) :
  honest func →
  v1_callback it = Some record_call →
  let '(_, it', s') := DuoV1_next func it s in
  v1_callback it' = Some record_call
  ∧ v1_limit it' = v1_limit it
  ∧ ((v1_min_time it' = v1_min_time it ∧ s' = s)
     ∨ (v1_min_time it < v1_min_time it'
        ∧ s' = s ++ [ {[ "min_time" := VInt (v1_min_time it') ]} ])).
Proof.
  intros Hhonest Hcb. unfold DuoV1_next.
  destruct (func (v1_min_time it)) as [events|err] eqn:Hfunc; [|by auto].
  cbv zeta.
  destruct (last _) as [e|] eqn:Hlast; [|by auto].
  simpl. split; [done|]. split; [done|]. right.
  rewrite Hcb. simpl. split; [|done].
  apply last_Some_elem_of in Hlast.
  assert (He : e ∈ events).
  { rewrite <- (sorted_by_timestamp_perm events).
    eapply elem_of_sublist; [exact Hlast | apply slice_to_sublist]. }
  pose proof (Hhonest _ _ Hfunc) as Hall.
  rewrite Forall_forall in Hall. specialize (Hall e He). lia.
Qed.

Lemma DuoV1_steps_forward (funcs : list (Z → called (list event))) :
  Forall honest funcs →
  ∀ (it : DuoV1LogsIterator (list kwargs)) (s : list kwargs),
    v1_callback it = Some record_call →
    ∃ saved : list Z,
      (DuoV1_steps funcs it s).2
      = s ++ map (λ m, {[ "min_time" := VInt m ]}) saved
      ∧ StronglySorted Z.lt (v1_min_time it :: saved)
      ∧ v1_min_time (DuoV1_steps funcs it s).1 = default (v1_min_time it) (last saved).
Proof.
  induction 1 as [|func rest Hfunc Hrest IH]; intros it s Hcb.
  - exists []. simpl. rewrite app_nil_r. repeat split. repeat constructor.
  - simpl. pose proof (DuoV1_next_forward func it s Hfunc Hcb) as Hstep.
    destruct (DuoV1_next func it s) as [[r it'] s'].
    destruct Hstep as (Hcb' & _ & [[Hsame ->] | [Hgrow ->]]).
    + destruct (IH it' s Hcb') as (saved & Hs & Hsorted & Hlast).
      exists saved. rewrite <- Hsame. auto.
    + destruct (IH it' (s ++ [ {[ "min_time" := VInt (v1_min_time it') ]} ]) Hcb')
        as (saved & Hs & Hsorted & Hlast).
      exists (v1_min_time it' :: saved). split; [|split].
      * rewrite Hs. simpl. by rewrite <- app_assoc.
      * constructor; [done|]. constructor; [done|].
        apply StronglySorted_inv in Hsorted as [_ Hall].
        eapply Forall_impl; [exact Hall|]. simpl. intros; lia.
      * rewrite Hlast, last_cons. by destruct (last saved).
Qed.

Lemma DuoV2_next_fetch_callback {St : Type} (it : DuoV2LogsIterator St) (s : St)
    (resp : response) :
  v2_callback (DuoV2_next (λ _, Got resp) it s).1.2 = v2_callback it.
Proof.
  unfold DuoV2_next. cbv zeta.
  destruct (truthy _), (resp_lists resp !! ITEMS_FIELD it) as [events|];
    try destruct (len events =? 0); done.
Qed.

(** The offset-cursor iterator saves the next_offset of each answer that
    carries one, in the order of the answers. *)
Lemma DuoV2_steps_saved (resps : list response) :
  ∀ (it : DuoV2LogsIterator (list kwargs)) (s : list kwargs),
    v2_callback it = Some record_call →
    (DuoV2_steps (map (λ resp _, Got resp) resps) it s).2
    = s ++ map (λ off, {[ "next_offset" := off ]})
               (List.filter truthy (map next_offset_of resps)).
Proof.
  induction resps as [|resp rest IH]; intros it s Hcb; simpl.
  - by rewrite app_nil_r.
  - pose proof (DuoV2_next_state (λ _, Got resp) it s resp eq_refl) as Hs.
    pose proof (DuoV2_next_fetch_callback it s resp) as Hk.
    destruct (DuoV2_next (λ _, Got resp) it s) as [[r it'] s'].
    simpl in Hs, Hk. rewrite IH by (by rewrite Hk). subst s'.
    fold (next_offset_of resp).
    destruct (truthy (next_offset_of resp)); simpl; [|done].
    rewrite Hcb. simpl. unfold record_call. by rewrite <- app_assoc.
Qed.

Lemma honest_since (held : list event) : honest (since held).
Proof.
  intros mintime events [= <-].
  rewrite Forall_forall. intros e He.
  apply list_elem_of_In, filter_In in He as [_ He]. lia.
Qed.

(** C5, as stated, fails for the offset-cursor iterator: a source that
    keeps its contract on timestamps and answers a page with a cursor, then
    an empty page with the same cursor, has the callback invoked twice
    with the same value, which no strict order puts after itself. *)
Lemma offset_checkpoint_not_strictly_forward :
  Forall (λ e, 50 <= timestamp e) [e100; e101]
  ∧ (DuoV2_steps [λ _, Got page_then_more; λ _, Got stalled_page]
       (DuoV2_init "items" (Some record_call) (Some (VInt 50)) None (Some 1000))
       []).2
    = [ {[ "next_offset" := VStr "1532951895000" ]};
        {[ "next_offset" := VStr "1532951895000" ]} ]
  ∧ ¬ ∃ before : relation kwargs,
        Irreflexive before
        ∧ Sorted before [ {[ "next_offset" := VStr "1532951895000" ]};
                          {[ "next_offset" := VStr "1532951895000" ]} ].
Proof.
  split; [repeat constructor; by vm_compute|].
  split; [by vm_compute|].
  intros (before & Hirr & Hsorted).
  apply Sorted_inv in Hsorted as [_ Hhd].
  apply HdRel_inv in Hhd. by apply (Hirr _ Hhd).
Qed.

(** C5, amended.  The time-cursor iterator, on a source that returns no
    record older than the requested min_time, passes to the callback
    values that strictly increase, the first of them greater than the
    cursor it started from, which is the persisted min_time; its cursor is
    the last value saved.  The offset-cursor iterator passes to the
    callback the next_offset of every answer that carries one, in order
    and unchanged, so that its checkpoint moves as the source's tokens do. *)
Theorem checkpoint_moves_forward :
  (∀ (funcs : list (Z → called (list event)))
     (it : DuoV1LogsIterator (list kwargs)) (s : list kwargs),
     Forall honest funcs →
     v1_callback it = Some record_call →
     ∃ saved : list Z,
       (DuoV1_steps funcs it s).2
       = s ++ map (λ m, {[ "min_time" := VInt m ]}) saved
       ∧ StronglySorted Z.lt (v1_min_time it :: saved)
       ∧ v1_min_time (DuoV1_steps funcs it s).1
         = default (v1_min_time it) (last saved))
  ∧ (∀ (m limit : Z) (callback : option (Callback (list kwargs))),
       v1_min_time (DuoV1_init (Some m) limit callback) = m)
  ∧ (∀ (resps : list response)
       (it : DuoV2LogsIterator (list kwargs)) (s : list kwargs),
       v2_callback it = Some record_call →
       (DuoV2_steps (map (λ resp _, Got resp) resps) it s).2
       = s ++ map (λ off, {[ "next_offset" := off ]})
                  (List.filter truthy (map next_offset_of resps))).
Proof.
  split; [|split].
  - intros funcs it s Hhonest Hcb. by apply DuoV1_steps_forward.
  - intros m limit callback. simpl. destruct (Z.eqb_spec m 0); simpl; lia.
  - intros resps it s Hcb. by apply DuoV2_steps_saved.
Qed.

Lemma checkpoint_moves_forward_witness :
  Forall honest [since held_events; since held_events; since held_events]
  ∧ ∃ saved : list Z,
      (DuoV1_steps [since held_events; since held_events; since held_events]
         (DuoV1_init (Some 100) 2 (Some record_call)) []).2
      = [] ++ map (λ m, {[ "min_time" := VInt m ]}) saved
      ∧ StronglySorted Z.lt (100 :: saved)
      ∧ v1_min_time
          (DuoV1_steps [since held_events; since held_events; since held_events]
             (DuoV1_init (Some 100) 2 (Some record_call)) []).1
        = default 100 (last saved).
Proof.
  assert (H : Forall honest [since held_events; since held_events; since held_events])
    by (repeat constructor; apply honest_since).
  split; [exact H|].
  exact (proj1 checkpoint_moves_forward
           [since held_events; since held_events; since held_events]
           (DuoV1_init (Some 100) 2 (Some record_call)) [] H eq_refl).
Defined.

(** ** The blob scanner *)

(** C7.  [get_most_recent_blobs] with lower bound [T] yields the blobs of
    the listing modified strictly after [T], and only them, in the order
    of the listing: a blob modified at [T] is left out, one modified at
    [T + 1] is kept, and the result over a listing in two parts is the
    result over the first part followed by the result over the second.
    On the listing of the test, with a lower bound two minutes after the
    first blob, the second and third blobs are yielded. *)
Theorem get_most_recent_blobs_after_lower_bound :
  (∀ (listing : list BlobProperties) (T : Z),
     (∀ blob, blob ∈ get_most_recent_blobs listing T
              ↔ blob ∈ listing ∧ T < last_modified blob)
     ∧ get_most_recent_blobs listing T `sublist_of` listing
     ∧ (∀ first second,
          listing = first ++ second →
          get_most_recent_blobs listing T
          = get_most_recent_blobs first T ++ get_most_recent_blobs second T)
     ∧ (∀ blob, last_modified blob = T → blob ∉ get_most_recent_blobs listing T)
     ∧ (∀ blob, blob ∈ listing → last_modified blob = T + 1 →
                blob ∈ get_most_recent_blobs listing T))
  ∧ get_most_recent_blobs expected_blobs (1700000000 + 2 * 60)
    = [properties2; properties3].
Proof.
  split; [|reflexivity].
  intros listing T. unfold get_most_recent_blobs.
  split; [intros blob; rewrite list_elem_of_filter; tauto|].
  split; [apply sublist_filter|].
  split; [intros first second ->; apply filter_app|].
  split.
  - intros blob Hlm. rewrite list_elem_of_filter. lia.
  - intros blob Hin Hlm. rewrite list_elem_of_filter. split; [lia|done].
Qed.

Lemma get_most_recent_blobs_after_lower_bound_witness :
  properties2 ∈ expected_blobs
  ∧ last_modified properties2 = 1700000000 + 5 * 60 - 1 + 1
  ∧ properties2 ∈ get_most_recent_blobs expected_blobs (1700000000 + 5 * 60 - 1)
  ∧ properties2 ∉ get_most_recent_blobs expected_blobs (1700000000 + 5 * 60).
Proof.
  assert (Hin : properties2 ∈ expected_blobs) by (apply list_elem_of_In; simpl; tauto).
  assert (Hlm : last_modified properties2 = 1700000000 + 5 * 60 - 1 + 1) by reflexivity.
  split; [exact Hin|]. split; [exact Hlm|]. split.
  - destruct (proj1 get_most_recent_blobs_after_lower_bound expected_blobs
                (1700000000 + 5 * 60 - 1)) as (_ & _ & _ & _ & Hkeep).
    exact (Hkeep properties2 Hin Hlm).
  - destruct (proj1 get_most_recent_blobs_after_lower_bound expected_blobs
                (1700000000 + 5 * 60)) as (_ & _ & _ & Hdrop & _).
    exact (Hdrop properties2 eq_refl).
Defined.








(** The fourth test of [get_azure_blob_data]: the checkpoint is one day
    old, the only blob was modified now, its temporary file holds the
    compressed content; the records and the new watermark. *)
Lemma get_azure_blob_data_one_gzip_blob :
  get_azure_blob_data container (1700000000 + 5 * 60)
    (Some (1700000000 + 5 * 60 - 24 * one_hour))
  = Some ([one_record; one_record; one_record], Some (1700000000 + 5 * 60)).
Proof. by vm_compute. Qed.



(** ** Pacing *)

(** C8.  The worker at a page that took six seconds to fetch and forward,
    with a frequency of five seconds: the fetch lasts five seconds, the
    push one second; the duration the worker measures starts after the
    fetch, so it is one second, and the worker sleeps four seconds, where
    a pause computed from the whole cycle would be none. *)
Theorem pacing_measures_the_forward_only :
  ∃ (iterator : events_iterator) (fetched forwarded : world),
    iterator_next (trial empty_page slow_fetch) ADMINISTRATION
      (get_events_iterator (trial empty_page slow_fetch) ADMINISTRATION fresh) fresh
    = (Page [e100; e101], iterator, fetched)
    ∧ forward_page (trial empty_page slow_fetch) ADMINISTRATION [e100; e101] fetched
      = Returned forwarded
    ∧ frequency (trial empty_page slow_fetch) = 5
    ∧ now fetched = (1700000000 + 5)%Q
    ∧ now forwarded = (1700000000 + 5 + 1 + 4)%Q
    ∧ trace forwarded
      = [ ACall ADMINISTRATION {[ "mintime" := VInt 0 ]};
          AMetric "INCOMING_MESSAGES" 2;
          APush ["100"; "101"];
          ALog "Fetched and forwarded 2 ADMINISTRATION events in 1 seconds" "info";
          AMetric "OUTCOMING_EVENTS" 2;
          AMetric "FORWARD_EVENTS_DURATION" 1;
          ALog "Next batch of ADMINISTRATION events in the future. Waiting 4 seconds"
               "info";
          ASleep 4 ].
Proof.
  eexists _, _, _. split; [by vm_compute|]. split; [by vm_compute|].
  repeat split; by vm_compute.
Qed.

(** After a page that was pushed, the worker sleeps the frequency minus
    the whole seconds between the two readings of the clock, which
    enclose the push, when that is positive, and not at all otherwise. *)
Lemma forward_page_pacing (env : environment) (lt : LogType)
    (events : list event) (w : world) (ids : list string) :
  events ≠ [] →
  push_events_to_intakes env (calls w) (map (dumps env) (map (tag lt) events)) = Got ids →
  let batch_duration := int_of_float (now w + took env (calls w) - now w) in
  ∃ w2, forward_page env lt events w = Returned w2
        ∧ (0 < frequency env - batch_duration →
           last (trace w2) = Some (ASleep (frequency env - batch_duration)))
        ∧ (frequency env - batch_duration <= 0 →
           ∃ added, trace w2 = trace w ++ added
                    ∧ forallb (λ a, negb (pauses a)) added = true).
Proof.
  intros Hne Hpush batch_duration. unfold forward_page. cbv zeta.
  assert (Hlen : (0 <? len (map (dumps env) (map (tag lt) events))) = true).
  { apply Z.ltb_lt. unfold len. rewrite !length_map.
    destruct events; [done|simpl; lia]. }
  rewrite Hlen. simpl calls. rewrite Hpush. simpl now. fold batch_duration.
  destruct (Z.ltb_spec 0 (frequency env - batch_duration)) as [Hpos|Hneg].
  - eexists. split; [done|]. split; [|lia].
    intros _. simpl. by rewrite last_snoc.
  - eexists. split; [done|]. split; [lia|].
    intros _. simpl. eexists. rewrite <- !app_assoc. split; [done|]. done.
Qed.

(** ** The worker's loop *)

Local Ltac flatten_trace := simpl; rewrite <- ?app_assoc; simpl.









(** * Further properties of the iterators and of the worker *)

(** ** One step of the time-cursor iterator *)

Lemma sorted_by_timestamp_length (l : list event) :
  length (sorted_by_timestamp l) = length l.
Proof. by rewrite sorted_by_timestamp_perm. Qed.

Lemma slice_to_prefix {A : Type} (k : Z) (l : list A) :
  ∃ rest, l = slice_to k l ++ rest.
Proof.
  unfold slice_to. destruct (0 <=? k); eexists; symmetry; apply take_drop.
Qed.

Lemma slice_to_length {A : Type} (k : Z) (l : list A) :
  length (slice_to k l)
  = if 0 <=? k then Nat.min (Z.to_nat k) (length l)
    else (length l - Z.to_nat (- k))%nat.
Proof.
  unfold slice_to. destruct (0 <=? k); rewrite length_take; lia.
Qed.

(** The page of a step, when there is one. *)
Lemma DuoV1_next_page {St : Type} (func : Z → called (list event))
    (it it' : DuoV1LogsIterator St) (s s' : St) (events page : list event) :
  func (v1_min_time it) = Got events →
  DuoV1_next func it s = (Page page, it', s') →
  page = slice_to (v1_limit it) (sorted_by_timestamp events)
  ∧ ∃ e, last page = Some e
         ∧ v1_min_time it' = timestamp e + 1
         ∧ v1_limit it' = v1_limit it
         ∧ v1_callback it' = v1_callback it
         ∧ s' = invoke (v1_callback it) {[ "min_time" := VInt (timestamp e + 1) ]} s.
Proof.
  intros Hfunc. unfold DuoV1_next. rewrite Hfunc. cbv zeta.
  destruct (last _) as [e|] eqn:Hlast; [|done].
  intros [= <- <- <-]. split; [done|]. by exists e.
Qed.

(** X1.  The page of a step is a prefix of the records sorted by
    timestamp: no record left out of the page is older than a record in
    it.  Its length is the smaller of [limit] and the number of records
    fetched when [limit] is not negative, and the number of records fetched
    less [-limit] when it is negative.  The step raises [StopIteration]
    exactly when that length is zero: nothing was fetched, [limit] is 0, or
    [limit] is negative and not more than [-limit] records were fetched. *)
Theorem DuoV1_page_holds_the_oldest :
  ∀ (St : Type) (func : Z → called (list event))
    (it : DuoV1LogsIterator St) (s : St) (events : list event),
    func (v1_min_time it) = Got events →
    (∀ page it' s',
       DuoV1_next func it s = (Page page, it', s') →
       page ≠ []
       ∧ (∃ rest, sorted_by_timestamp events = page ++ rest
                  ∧ ∀ a b, a ∈ page → b ∈ rest → timestamp a <= timestamp b)
       ∧ length page
         = if 0 <=? v1_limit it
           then Nat.min (Z.to_nat (v1_limit it)) (length events)
           else (length events - Z.to_nat (- v1_limit it))%nat)
    ∧ ((DuoV1_next func it s).1.1 = StopIteration
       ↔ events = [] ∨ v1_limit it = 0
         ∨ (v1_limit it < 0 ∧ Z.of_nat (length events) <= - v1_limit it)).
Proof.
  intros St func it s events Hfunc. split.
  - intros page it' s' Hnext.
    destruct (DuoV1_next_page func it it' s s' events page Hfunc Hnext)
      as (-> & e & Hlast & _).
    split; [by intros Hnil; rewrite Hnil in Hlast|].
    split.
    + destruct (slice_to_prefix (v1_limit it) (sorted_by_timestamp events))
        as [rest Hrest].
      exists rest. split; [done|].
      pose proof (sorted_by_timestamp_sorted events) as Hsorted.
      rewrite Hrest in Hsorted. intros a b Ha Hb.
      by apply (StronglySorted_app_1_elem_of _ _ _ _ _ Hsorted).
    + by rewrite slice_to_length, sorted_by_timestamp_length.
  - unfold DuoV1_next. rewrite Hfunc. cbv zeta.
    pose proof (slice_to_length (v1_limit it) (sorted_by_timestamp events)) as Hlen.
    rewrite sorted_by_timestamp_length in Hlen.
    destruct (last _) as [e|] eqn:Hlast; simpl.
    + split; [done|]. intros Hempty. exfalso.
      assert (length (slice_to (v1_limit it) (sorted_by_timestamp events)) ≠ 0%nat)
        as Hpos by (intros H0; apply nil_length_inv in H0; by rewrite H0 in Hlast).
      rewrite Hlen in Hpos.
      destruct (Z.leb_spec 0 (v1_limit it)), Hempty as [-> | [? | [? ?]]];
        simpl in *; lia.
    + split; [|done]. intros _. apply last_None in Hlast.
      rewrite Hlast in Hlen. simpl in Hlen.
      destruct (Z.leb_spec 0 (v1_limit it)).
      * destruct events; [by left|]. right. left. simpl in Hlen. lia.
      * right. right. lia.
Qed.

Lemma DuoV1_page_holds_the_oldest_witness :
  since held_events 0 = Got held_events
  ∧ (DuoV1_next (since held_events) (MkV1 (St := list kwargs) 0 0 None) []).1.1
    = StopIteration.
Proof.
  assert (H : since held_events
                (v1_min_time (MkV1 (St := list kwargs) 0 0 None)) = Got held_events)
    by reflexivity.
  split; [exact H|].
  apply (proj2 (DuoV1_page_holds_the_oldest (list kwargs) (since held_events)
                  (MkV1 0 0 None) [] held_events H)).
  right. left. reflexivity.
Defined.

Lemma insert_by_timestamp_head (e : event) (l : list event) :
  Forall (by_timestamp e) l → insert_by_timestamp e l = e :: l.
Proof.
  destruct l as [|x r]; [done|]. intros Hall. simpl.
  apply Forall_cons_1 in Hall as [Hx _]. unfold by_timestamp in Hx.
  by destruct (Z.leb_spec (timestamp e) (timestamp x)); [|lia].
Qed.

Lemma sorted_by_timestamp_id (l : list event) :
  StronglySorted by_timestamp l → sorted_by_timestamp l = l.
Proof.
  induction 1 as [|x r Hr IH Hx]; simpl; [done|].
  rewrite IH. by apply insert_by_timestamp_head.
Qed.

(** X2.  Sorting is idempotent, and an answer of the source that is
    already in ascending order of timestamps is only cut: the step returns
    the slice of the answer itself, records with equal timestamps in the
    order the source gave them. *)
Theorem DuoV1_sorted_answer_is_only_cut :
  (∀ l, sorted_by_timestamp (sorted_by_timestamp l) = sorted_by_timestamp l)
  ∧ ∀ (St : Type) (func : Z → called (list event))
      (it : DuoV1LogsIterator St) (s : St) (events : list event),
      func (v1_min_time it) = Got events →
      StronglySorted by_timestamp events →
      DuoV1_next func it s
      = match last (slice_to (v1_limit it) events) with
        | Some e =>
            (Page (slice_to (v1_limit it) events),
             MkV1 (timestamp e + 1) (v1_limit it) (v1_callback it),
             invoke (v1_callback it) {[ "min_time" := VInt (timestamp e + 1) ]} s)
        | None => (StopIteration, it, s)
        end.
Proof.
  split.
  - intros l. apply sorted_by_timestamp_id, sorted_by_timestamp_sorted.
  - intros St func it s events Hfunc Hsorted.
    unfold DuoV1_next. rewrite Hfunc. cbv zeta.
    by rewrite (sorted_by_timestamp_id events Hsorted).
Qed.

Lemma DuoV1_sorted_answer_is_only_cut_witness :
  StronglySorted by_timestamp tied_events
  ∧ DuoV1_next (λ _, Got tied_events) (MkV1 (St := list kwargs) 0 2 None) []
    = (Page [tie_a; tie_b], MkV1 101 2 None, []).
Proof.
  assert (H : StronglySorted by_timestamp tied_events).
  { repeat constructor; unfold by_timestamp; simpl; lia. }
  split; [exact H|].
  exact (proj2 DuoV1_sorted_answer_is_only_cut (list kwargs) (λ _, Got tied_events)
           (MkV1 0 2 None) [] tied_events eq_refl H).
Defined.

(** ** Several steps of the time-cursor iterator *)

Lemma sorted_last_is_greatest (l : list event) (e : event) :
  StronglySorted by_timestamp l → last l = Some e →
  ∀ a, a ∈ l → timestamp a <= timestamp e.
Proof.
  intros Hsorted Hlast a Ha. apply last_Some in Hlast as [l' ->].
  apply elem_of_app in Ha as [Ha | Ha].
  - apply (StronglySorted_app_1_elem_of _ _ _ _ _ Hsorted Ha). set_solver.
  - apply list_elem_of_singleton in Ha as ->. lia.
Qed.

Lemma slice_to_sorted (k : Z) (l : list event) :
  StronglySorted by_timestamp l → StronglySorted by_timestamp (slice_to k l).
Proof.
  intros Hsorted. destruct (slice_to_prefix k l) as [rest Hrest].
  rewrite Hrest in Hsorted. by apply StronglySorted_app_1_l in Hsorted.
Qed.

(** A page of an honest source lies between the cursor before the step
    and the cursor after it. *)
Lemma DuoV1_next_page_between {St : Type} (func : Z → called (list event))
    (it it' : DuoV1LogsIterator St) (s s' : St) (page : list event) :
  honest func →
  DuoV1_next func it s = (Page page, it', s') →
  StronglySorted by_timestamp page
  ∧ v1_min_time it < v1_min_time it'
  ∧ ∀ a, a ∈ page → v1_min_time it <= timestamp a < v1_min_time it'.
Proof.
  intros Hhonest Hnext.
  destruct (func (v1_min_time it)) as [events|err] eqn:Hfunc;
    [|by unfold DuoV1_next in Hnext; rewrite Hfunc in Hnext].
  destruct (DuoV1_next_page func it it' s s' events page Hfunc Hnext)
    as (Hpage & e & Hlast & Hcursor & _).
  assert (Hsorted : StronglySorted by_timestamp page).
  { rewrite Hpage. apply slice_to_sorted, sorted_by_timestamp_sorted. }
  assert (Hlow : ∀ a, a ∈ page → v1_min_time it <= timestamp a).
  { intros a Ha. pose proof (Hhonest _ _ Hfunc) as Hall.
    rewrite Forall_forall in Hall. apply Hall.
    rewrite <- (sorted_by_timestamp_perm events).
    eapply elem_of_sublist; [|apply slice_to_sublist]. by rewrite <- Hpage. }
  split; [done|]. split.
  - pose proof (Hlow e (last_Some_elem_of _ _ Hlast)). lia.
  - intros a Ha. split; [by apply Hlow|].
    pose proof (sorted_last_is_greatest page e Hsorted Hlast a Ha). lia.
Qed.

(** When no page is returned the cursor stays where it was. *)
Lemma DuoV1_next_no_page {St : Type} (func : Z → called (list event))
    (it : DuoV1LogsIterator St) (s : St) :
  (∀ page, (DuoV1_next func it s).1.1 ≠ Page page) →
  (DuoV1_next func it s).1.2 = it ∧ (DuoV1_next func it s).2 = s.
Proof.
  unfold DuoV1_next. destruct (func _) as [events|err]; [|done].
  cbv zeta. destruct (last _) as [e|]; [|done].
  intros H. by destruct (H _ eq_refl).
Qed.

Lemma DuoV1_pages_from_cursor {St : Type} (funcs : list (Z → called (list event))) :
  Forall honest funcs →
  ∀ (it : DuoV1LogsIterator St) (s : St),
    Forall (StronglySorted by_timestamp) (DuoV1_pages funcs it s)
    ∧ Forall (Forall (λ e, v1_min_time it <= timestamp e)) (DuoV1_pages funcs it s)
    ∧ StronglySorted (λ p q, ∀ a b, a ∈ p → b ∈ q → timestamp a < timestamp b)
        (DuoV1_pages funcs it s).
Proof.
  induction 1 as [|func rest Hfunc Hrest IH]; intros it s; simpl.
  - repeat split; constructor.
  - destruct (DuoV1_next func it s) as [[r it'] s'] eqn:Hnext.
    destruct r as [page| |err].
    + destruct (DuoV1_next_page_between func it it' s s' page Hfunc Hnext)
        as (Hsorted & Hgrow & Hbetween).
      destruct (IH it' s') as (IH1 & IH2 & IH3).
      split; [by constructor|]. split.
      * constructor.
        -- rewrite Forall_forall. intros a Ha. by apply Hbetween.
        -- eapply Forall_impl; [exact IH2|]. intros q Hq.
           eapply Forall_impl; [exact Hq|]. simpl. intros; lia.
      * constructor; [done|].
        rewrite Forall_forall. intros q Hq a b Ha Hb.
        rewrite Forall_forall in IH2. specialize (IH2 q Hq).
        rewrite Forall_forall in IH2. specialize (IH2 b Hb).
        destruct (Hbetween a Ha). lia.
    + pose proof (DuoV1_next_no_page func it s) as Hsame.
      rewrite Hnext in Hsame. simpl in Hsame.
      destruct Hsame as [-> ->]; [done|]. apply IH.
    + pose proof (DuoV1_next_no_page func it s) as Hsame.
      rewrite Hnext in Hsame. simpl in Hsame.
      destruct Hsame as [-> ->]; [done|]. apply IH.
Qed.

(** X3.  Over any sequence of steps on a source that returns no record
    older than the requested min_time, whatever the limit and the
    callback: every page is in ascending order, no page holds a record
    older than the cursor the iterator started from, and every record of a
    page is strictly older than every record of each later page, so that
    no record is returned twice. *)
Theorem DuoV1_pages_ascend :
  ∀ (St : Type) (funcs : list (Z → called (list event)))
    (it : DuoV1LogsIterator St) (s : St),
    Forall honest funcs →
    Forall (StronglySorted by_timestamp) (DuoV1_pages funcs it s)
    ∧ Forall (Forall (λ e, v1_min_time it <= timestamp e)) (DuoV1_pages funcs it s)
    ∧ StronglySorted (λ p q, ∀ a b, a ∈ p → b ∈ q → timestamp a < timestamp b)
        (DuoV1_pages funcs it s).
Proof. intros St funcs it s Hhonest. by apply DuoV1_pages_from_cursor. Qed.

Lemma DuoV1_pages_ascend_witness :
  Forall honest [since held_events; since held_events]
  ∧ DuoV1_pages [since held_events; since held_events]
      (MkV1 (St := list kwargs) 0 2 None) [] = [[e100; e101]; [e105]]
  ∧ StronglySorted (λ p q, ∀ a b, a ∈ p → b ∈ q → timestamp a < timestamp b)
      (DuoV1_pages [since held_events; since held_events]
         (MkV1 (St := list kwargs) 0 2 None) []).
Proof.
  assert (H : Forall honest [since held_events; since held_events])
    by (repeat constructor; apply honest_since).
  split; [exact H|]. split; [reflexivity|].
  exact (proj2 (proj2 (DuoV1_pages_ascend (list kwargs)
                         [since held_events; since held_events]
                         (MkV1 0 2 None) [] H))).
Defined.

(** X4.  What the cut leaves behind can be lost: after a step that
    returned a page, a record whose timestamp is not greater than that of
    the last record of the page, and that was not in the page, is in no
    page of any later step on sources that keep their contract.  This is
    the fate of a record that shares the timestamp of the last record of a
    full page. *)
Theorem DuoV1_cut_ties_are_skipped :
  ∀ (St : Type) (func : Z → called (list event))
    (it it' : DuoV1LogsIterator St) (s s' : St) (page : list event)
    (e last_e : event) (funcs : list (Z → called (list event))),
    DuoV1_next func it s = (Page page, it', s') →
    last page = Some last_e →
    timestamp e <= timestamp last_e →
    Forall honest funcs →
    Forall (λ later, e ∉ later) (DuoV1_pages funcs it' s').
Proof.
  intros St func it it' s s' page e last_e funcs Hnext Hlast Hle Hhonest.
  assert (Hcursor : v1_min_time it' = timestamp last_e + 1).
  { unfold DuoV1_next in Hnext. destruct (func _) as [events|]; [|done].
    cbv zeta in Hnext. destruct (last _) as [e'|] eqn:Hl; [|done].
    injection Hnext as <- <- <-. rewrite Hlast in Hl. by injection Hl as <-. }
  destruct (DuoV1_pages_from_cursor funcs Hhonest it' s') as (_ & Hfrom & _).
  eapply Forall_impl; [exact Hfrom|]. simpl. intros later Hlater Hin.
  rewrite Forall_forall in Hlater. specialize (Hlater e Hin). lia.
Qed.

Lemma DuoV1_cut_ties_are_skipped_witness :
  DuoV1_next (since tied_events) (MkV1 (St := list kwargs) 0 2 None) []
  = (Page [tie_a; tie_b], MkV1 101 2 None, [])
  ∧ (tie_c ∉ [tie_a; tie_b])
  ∧ Forall (λ later, tie_c ∉ later)
      (DuoV1_pages [since tied_events; since tied_events]
         (MkV1 (St := list kwargs) 101 2 None) []).
Proof.
  assert (H1 : DuoV1_next (since tied_events) (MkV1 (St := list kwargs) 0 2 None) []
               = (Page [tie_a; tie_b], MkV1 101 2 None, [])) by reflexivity.
  assert (H2 : Forall honest [since tied_events; since tied_events])
    by (repeat constructor; apply honest_since).
  split; [exact H1|]. split.
  - intros Hin. apply list_elem_of_In in Hin. simpl in Hin.
    destruct Hin as [Hin | [Hin | []]];
      apply (f_equal (λ e, attrs e !! "user")) in Hin;
      vm_compute in Hin; discriminate Hin.
  - apply (DuoV1_cut_ties_are_skipped (list kwargs) (since tied_events)
             (MkV1 0 2 None) (MkV1 101 2 None) (@nil kwargs) (@nil kwargs)
             [tie_a; tie_b] tie_c tie_b
             [since tied_events; since tied_events] H1 eq_refl).
    + simpl. lia.
    + exact H2.
Defined.

(** ** Draining a source with the time-cursor iterator *)

Lemma filter_all_false {A : Type} (f : A → bool) (l : list A) :
  (∀ a, a ∈ l → f a = false) → List.filter f l = [].
Proof.
  induction l as [|x r IH]; intros H; simpl; [done|].
  rewrite (H x) by set_solver. apply IH. intros a Ha. apply H. set_solver.
Qed.

Lemma filter_all_true {A : Type} (f : A → bool) (l : list A) :
  (∀ a, a ∈ l → f a = true) → List.filter f l = l.
Proof.
  induction l as [|x r IH]; intros H; simpl; [done|].
  rewrite (H x) by set_solver. f_equal. apply IH. intros a Ha. apply H. set_solver.
Qed.

Lemma filter_insert_by_timestamp (f : event → bool) (e : event) (l : list event) :
  StronglySorted by_timestamp l →
  List.filter f (insert_by_timestamp e l)
  = if f e then insert_by_timestamp e (List.filter f l) else List.filter f l.
Proof.
  induction 1 as [|x r Hr IH Hx]; simpl.
  - by destruct (f e).
  - destruct (Z.leb_spec (timestamp e) (timestamp x)) as [Hle|Hgt].
    + simpl. destruct (f e); [|done].
      rewrite insert_by_timestamp_head; [done|].
      rewrite Forall_forall. intros y Hy.
      change (if f x then x :: List.filter f r else List.filter f r)
        with (List.filter f (x :: r)) in Hy.
      apply list_elem_of_In, filter_In in Hy as [Hy _].
      apply list_elem_of_In, elem_of_cons in Hy as [-> | Hy]; [done|].
      rewrite Forall_forall in Hx. specialize (Hx y Hy).
      unfold by_timestamp in *. lia.
    + simpl. rewrite IH. destruct (f x), (f e); simpl; try done.
      by destruct (Z.leb_spec (timestamp e) (timestamp x)); [lia|].
Qed.

(** The stable sort commutes with the selection of records. *)
Lemma sorted_by_timestamp_filter (f : event → bool) (l : list event) :
  sorted_by_timestamp (List.filter f l) = List.filter f (sorted_by_timestamp l).
Proof.
  induction l as [|x r IH]; simpl; [done|].
  rewrite filter_insert_by_timestamp by apply sorted_by_timestamp_sorted.
  destruct (f x); simpl; by rewrite IH.
Qed.

Lemma sorted_split_at (c : Z) (l : list event) :
  StronglySorted by_timestamp l →
  l = List.filter (λ e, timestamp e <? c) l ++ List.filter (λ e, c <=? timestamp e) l.
Proof.
  induction 1 as [|x r Hr IH Hx]; simpl; [done|].
  destruct (Z.ltb_spec (timestamp x) c) as [Hlt|Hge].
  - destruct (Z.leb_spec c (timestamp x)); [lia|]. simpl. by f_equal.
  - destruct (Z.leb_spec c (timestamp x)); [|lia].
    rewrite Forall_forall in Hx.
    rewrite filter_all_false, filter_all_true; [done| |].
    + intros a Ha. apply Z.leb_le. specialize (Hx a Ha). unfold by_timestamp in Hx. lia.
    + intros a Ha. apply Z.ltb_ge. specialize (Hx a Ha). unfold by_timestamp in Hx. lia.
Qed.

Lemma strictly_sorted_of_distinct (l : list event) :
  NoDup (timestamp <$> l) →
  StronglySorted by_timestamp l → StronglySorted strictly_by_timestamp l.
Proof.
  intros Hnodup. induction 1 as [|x r Hr IH Hx]; [constructor|].
  rewrite fmap_cons in Hnodup. apply NoDup_cons in Hnodup as [Hnotin Hnodup].
  constructor; [by apply IH|].
  rewrite Forall_forall in Hx |- *. intros y Hy.
  specialize (Hx y Hy). unfold by_timestamp, strictly_by_timestamp in *.
  assert (timestamp y ≠ timestamp x); [|lia].
  intros Heq. apply Hnotin. rewrite <- Heq. by apply list_elem_of_fmap_2.
Qed.

(** What a source holding [held] makes of a request, once sorted, when
    the sorted records split at the cursor. *)
Lemma since_sorted_rest (held done rest : list event) (cursor : Z) :
  sorted_by_timestamp held = done ++ rest →
  (∀ a, a ∈ done → timestamp a < cursor) →
  (∀ b, b ∈ rest → cursor <= timestamp b) →
  sorted_by_timestamp (List.filter (λ e, cursor <=? timestamp e) held) = rest.
Proof.
  intros Hsplit Hdone Hrest.
  rewrite sorted_by_timestamp_filter, Hsplit, List.filter_app.
  rewrite filter_all_false, filter_all_true; [done| |].
  - intros b Hb. apply Z.leb_le. by apply Hrest.
  - intros a Ha. apply Z.leb_gt. by apply Hdone.
Qed.

Lemma DuoV1_next_since {St : Type} (held done rest : list event)
    (cursor limit : Z) (callback : option (Callback St)) (s : St) :
  0 < limit →
  sorted_by_timestamp held = done ++ rest →
  (∀ a, a ∈ done → timestamp a < cursor) →
  (∀ b, b ∈ rest → cursor <= timestamp b) →
  DuoV1_next (since held) (MkV1 cursor limit callback) s
  = match last (take (Z.to_nat limit) rest) with
    | Some e =>
        (Page (take (Z.to_nat limit) rest),
         MkV1 (timestamp e + 1) limit callback,
         invoke callback {[ "min_time" := VInt (timestamp e + 1) ]} s)
    | None => (StopIteration, MkV1 cursor limit callback, s)
    end.
Proof.
  intros Hlimit Hsplit Hdone Hrest. unfold DuoV1_next, since. simpl.
  rewrite (since_sorted_rest held done rest cursor Hsplit Hdone Hrest).
  by rewrite slice_to_nonneg by lia.
Qed.

Lemma DuoV1_drain_from {St : Type} (held : list event) (limit : Z)
    (callback : option (Callback St)) :
  0 < limit →
  StronglySorted strictly_by_timestamp (sorted_by_timestamp held) →
  ∀ (n : nat) (done rest : list event) (cursor : Z) (s : St),
    sorted_by_timestamp held = done ++ rest →
    (∀ a, a ∈ done → timestamp a < cursor) →
    (∀ b, b ∈ rest → cursor <= timestamp b) →
    (length rest ≤ n)%nat →
    concat (DuoV1_pages (replicate n (since held)) (MkV1 cursor limit callback) s)
    = rest
    ∧ (DuoV1_next (since held)
         (DuoV1_steps (replicate n (since held)) (MkV1 cursor limit callback) s).1
         (DuoV1_steps (replicate n (since held)) (MkV1 cursor limit callback) s).2).1.1
      = StopIteration.
Proof.
  intros Hlimit Hstrict n.
  induction n as [|n IH]; intros done rest cursor s Hsplit Hdone Hrest Hlen.
  - destruct rest; [|simpl in Hlen; lia]. simpl. split; [done|].
    rewrite (DuoV1_next_since held done [] cursor limit callback s Hlimit
               Hsplit Hdone Hrest).
    by rewrite take_nil.
  - simpl.
    rewrite (DuoV1_next_since held done rest cursor limit callback s Hlimit
               Hsplit Hdone Hrest).
    destruct (last (take (Z.to_nat limit) rest)) as [e|] eqn:Hlast.
    + assert (He : e ∈ take (Z.to_nat limit) rest) by by apply last_Some_elem_of.
      assert (Hsplit' : sorted_by_timestamp held
                = (done ++ take (Z.to_nat limit) rest) ++ drop (Z.to_nat limit) rest).
      { by rewrite <- app_assoc, take_drop. }
      pose proof (sorted_by_timestamp_sorted held) as Hsorted.
      destruct (IH (done ++ take (Z.to_nat limit) rest) (drop (Z.to_nat limit) rest)
                  (timestamp e + 1)
                  (invoke callback {[ "min_time" := VInt (timestamp e + 1) ]} s)
                  Hsplit') as [Hpages Hstop].
      * intros a Ha. apply elem_of_app in Ha as [Ha | Ha].
        -- specialize (Hdone a Ha).
           assert (cursor <= timestamp e); [|lia].
           apply Hrest. eapply elem_of_sublist; [exact He | apply sublist_take].
        -- assert (timestamp a <= timestamp e); [|lia].
           apply (sorted_last_is_greatest (take (Z.to_nat limit) rest)); [|done..].
           rewrite Hsplit' in Hsorted.
           by apply StronglySorted_app_1_l, StronglySorted_app_1_r in Hsorted.
      * intros b Hb. rewrite Hsplit' in Hstrict.
        assert (strictly_by_timestamp e b) as Hlt;
          [|unfold strictly_by_timestamp in Hlt; lia].
        apply (StronglySorted_app_1_elem_of _ _ _ _ _ Hstrict); [|done].
        apply elem_of_app. by right.
      * rewrite length_drop.
        assert (0 < length rest)%nat; [|lia].
        destruct rest; [|simpl; lia].
        rewrite take_nil in He. by apply elem_of_nil in He.
      * simpl. split; [|exact Hstop].
        by rewrite Hpages, take_drop.
    + apply last_None in Hlast.
      assert (rest = []) as ->.
      { destruct rest; [done|].
        destruct (Z.to_nat limit) eqn:Hk; [lia|done]. }
      apply (IH done [] cursor s Hsplit Hdone Hrest). simpl. lia.
Qed.

(** X5.  Draining a source.  When the records a source holds have
    pairwise distinct timestamps and the limit is positive, calling
    [__next__] at least as many times as there are records returns, page
    after page, exactly the records that are not older than the cursor
    the iterator started from, each once and in ascending order; the call
    after that raises [StopIteration]. *)
Theorem DuoV1_drains_a_source :
  ∀ (St : Type) (held : list event) (it : DuoV1LogsIterator St) (s : St) (n : nat),
    NoDup (timestamp <$> held) →
    0 < v1_limit it →
    (length held ≤ n)%nat →
    concat (DuoV1_pages (replicate n (since held)) it s)
    = List.filter (λ e, v1_min_time it <=? timestamp e) (sorted_by_timestamp held)
    ∧ (DuoV1_next (since held)
         (DuoV1_steps (replicate n (since held)) it s).1
         (DuoV1_steps (replicate n (since held)) it s).2).1.1
      = StopIteration.
Proof.
  intros St held [cursor limit callback] s n Hnodup Hlimit Hn. simpl in *.
  pose proof (sorted_by_timestamp_sorted held) as Hsorted.
  apply (DuoV1_drain_from held limit callback Hlimit) with
    (done := List.filter (λ e, timestamp e <? cursor) (sorted_by_timestamp held)).
  - apply strictly_sorted_of_distinct; [|done].
    by rewrite sorted_by_timestamp_perm.
  - by apply sorted_split_at.
  - intros a Ha. apply list_elem_of_In, filter_In in Ha as [_ Ha]. lia.
  - intros b Hb. apply list_elem_of_In, filter_In in Hb as [_ Hb]. lia.
  - etransitivity; [|exact Hn].
    rewrite <- (sorted_by_timestamp_length held).
    generalize (sorted_by_timestamp held). intros l.
    induction l as [|x r IHl]; simpl; [done|].
    destruct (cursor <=? timestamp x); simpl; lia.
Qed.

Lemma DuoV1_drains_a_source_witness :
  NoDup (timestamp <$> held_events)
  ∧ concat (DuoV1_pages (replicate 3 (since held_events))
              (MkV1 (St := list kwargs) 101 2 None) [])
    = [e101; e105].
Proof.
  assert (H : NoDup (timestamp <$> held_events)).
  { simpl. repeat (apply NoDup_cons_2; [rewrite ?elem_of_cons, elem_of_nil; lia|]).
    apply NoDup_nil_2. }
  split; [exact H|].
  destruct (DuoV1_drains_a_source (list kwargs) held_events (MkV1 101 2 None) [] 3%nat H)
    as [Hpages _]; [simpl; lia | simpl; lia |].
  rewrite Hpages. reflexivity.
Defined.

(** ** The offset-cursor iterator: a missing list, and what never changes *)

(** X6.  A response that lacks the items field makes the step raise
    (the length of [None] is taken), but only after the cursor has been
    handled: a next_offset carried by that response has already become
    the cursor and has already been passed to the callback. *)
Theorem DuoV2_missing_items_field :
  ∀ (St : Type) (func : kwargs → called response)
    (it : DuoV2LogsIterator St) (s : St) (resp : response),
    func (DuoV2_request it) = Got resp →
    resp_lists resp !! ITEMS_FIELD it = None →
    (DuoV2_next func it s).1.1 = Raised "TypeError"
    ∧ (truthy (next_offset_of resp) = true →
       v2_next_offset (DuoV2_next func it s).1.2 = next_offset_of resp
       ∧ (DuoV2_next func it s).2
         = invoke (v2_callback it) {[ "next_offset" := next_offset_of resp ]} s)
    ∧ (truthy (next_offset_of resp) = false →
       (DuoV2_next func it s).1.2 = it ∧ (DuoV2_next func it s).2 = s).
Proof.
  intros St func it s resp Hfunc Hitems.
  unfold DuoV2_next. rewrite Hfunc, Hitems. cbv zeta.
  fold (next_offset_of resp).
  destruct (truthy (next_offset_of resp)); simpl; repeat split; done.
Qed.

Lemma DuoV2_missing_items_field_witness :
  resp_lists headless_page !! "items" = None
  ∧ DuoV2_next (λ _, Got headless_page)
      (DuoV2_init "items" (Some record_call) (Some (VInt 50)) None (Some 1000)) []
    = (Raised "TypeError",
       MkV2 "items" (VInt 50) (VStr "1532951895000") 1000 (Some record_call),
       [ {[ "next_offset" := VStr "1532951895000" ]} ]).
Proof.
  assert (H : resp_lists headless_page
                !! ITEMS_FIELD (DuoV2_init (St := list kwargs) "items" (Some record_call)
                                  (Some (VInt 50)) None (Some 1000)) = None)
    by reflexivity.
  split; [exact H|].
  destruct (DuoV2_missing_items_field (list kwargs) (λ _, Got headless_page)
              (DuoV2_init "items" (Some record_call) (Some (VInt 50)) None (Some 1000))
              [] headless_page eq_refl H) as (Hr & Hsave & _).
  destruct (Hsave eq_refl) as [Hoff Hs].
  destruct (DuoV2_next _ _ _) as [[r it'] s'] eqn:Hnext.
  simpl in Hr, Hoff, Hs. subst r s'.
  vm_compute in Hnext. by injection Hnext as <-.
Defined.

(** What a step of the offset-cursor iterator can change: the
    next_offset, and only into one that is known. *)
Lemma DuoV2_next_fields {St : Type} (func : kwargs → called response)
    (it : DuoV2LogsIterator St) (s : St) :
  ITEMS_FIELD (DuoV2_next func it s).1.2 = ITEMS_FIELD it
  ∧ v2_min_time (DuoV2_next func it s).1.2 = v2_min_time it
  ∧ v2_limit (DuoV2_next func it s).1.2 = v2_limit it
  ∧ v2_callback (DuoV2_next func it s).1.2 = v2_callback it
  ∧ (v2_next_offset (DuoV2_next func it s).1.2 = v2_next_offset it
     ∨ truthy (v2_next_offset (DuoV2_next func it s).1.2) = true).
Proof.
  unfold DuoV2_next. destruct (func _) as [resp|err]; [|by auto 6].
  cbv zeta.
  destruct (truthy _) eqn:Htruthy, (resp_lists resp !! ITEMS_FIELD it) as [events|];
    try destruct (len events =? 0); simpl; auto 6.
Qed.

(** X7.  Whatever the source answers or raises, steps of the
    offset-cursor iterator never change its items field, its min_time,
    its limit or its callback, and once a next_offset is known one stays
    known: from then on every request carries a next_offset and none
    carries a mintime. *)
Theorem DuoV2_offset_stays_known :
  ∀ (St : Type) (funcs : list (kwargs → called response))
    (it : DuoV2LogsIterator St) (s : St),
    ITEMS_FIELD (DuoV2_steps funcs it s).1 = ITEMS_FIELD it
    ∧ v2_min_time (DuoV2_steps funcs it s).1 = v2_min_time it
    ∧ v2_limit (DuoV2_steps funcs it s).1 = v2_limit it
    ∧ v2_callback (DuoV2_steps funcs it s).1 = v2_callback it
    ∧ (truthy (v2_next_offset it) = true →
       truthy (v2_next_offset (DuoV2_steps funcs it s).1) = true
       ∧ DuoV2_request (DuoV2_steps funcs it s).1 !! "next_offset"
         = Some (v2_next_offset (DuoV2_steps funcs it s).1)
       ∧ DuoV2_request (DuoV2_steps funcs it s).1 !! "mintime" = None).
Proof.
  intros St funcs. induction funcs as [|func rest IH]; intros it s; simpl.
  - do 4 (split; [done|]). intros Hknown. split; [done|].
    by apply DuoV2_request_offset.
  - pose proof (DuoV2_next_fields func it s) as (Hf & Hm & Hl & Hc & Ho).
    destruct (DuoV2_next func it s) as [[r it'] s']. simpl in *.
    destruct (IH it' s') as (IHf & IHm & IHl & IHc & IHo).
    rewrite IHf, IHm, IHl, IHc. do 4 (split; [done|]).
    intros Hknown. apply IHo. destruct Ho as [-> | Ho]; done.
Qed.

Lemma DuoV2_offset_stays_known_witness :
  truthy (VStr "1532951895000") = true
  ∧ DuoV2_request
      (DuoV2_steps [λ _, Got lone_page; λ _, Threw "ConnectionError"; λ _, Got empty_page]
         (MkV2 (St := list kwargs) "items" (VInt 50) (VStr "1532951895000") 1000 None)
         []).1
      !! "mintime" = None.
Proof.
  assert (H : truthy (v2_next_offset
                        (MkV2 (St := list kwargs) "items" (VInt 50)
                           (VStr "1532951895000") 1000 None)) = true) by reflexivity.
  split; [exact H|].
  destruct (DuoV2_offset_stays_known (list kwargs)
              [λ _, Got lone_page; λ _, Threw "ConnectionError"; λ _, Got empty_page]
              (MkV2 "items" (VInt 50) (VStr "1532951895000") 1000 None) [])
    as (_ & _ & _ & _ & Hknown).
  exact (proj2 (proj2 (Hknown H))).
Defined.

(** X8.  The offset-cursor iterator has no time cursor of its own to
    advance: as long as the answers carry no next_offset, steps leave the
    iterator and the state of its callback exactly as they were, whatever
    pages they return, so that every call repeats the same request. *)
Theorem DuoV2_without_offset_repeats_itself :
  ∀ (St : Type) (funcs : list (kwargs → called response))
    (it : DuoV2LogsIterator St) (s : St),
    Forall (λ func, ∀ request resp, func request = Got resp →
                                    truthy (next_offset_of resp) = false) funcs →
    DuoV2_steps funcs it s = (it, s).
Proof.
  intros St funcs it s Hnone. revert it s.
  induction Hnone as [|func rest Hfunc Hrest IH]; intros it s; simpl; [done|].
  assert (Hsame : (DuoV2_next func it s).1.2 = it ∧ (DuoV2_next func it s).2 = s).
  { unfold DuoV2_next.
    destruct (func (DuoV2_request it)) as [resp|err] eqn:Hcall; [|done].
    cbv zeta. fold (next_offset_of resp). rewrite (Hfunc _ _ Hcall).
    destruct (resp_lists resp !! ITEMS_FIELD it) as [events|];
      try destruct (len events =? 0); done. }
  destruct (DuoV2_next func it s) as [[r it'] s']. simpl in Hsame.
  destruct Hsame as [-> ->]. apply IH.
Qed.

Lemma DuoV2_without_offset_repeats_itself_witness :
  truthy (next_offset_of lone_page) = false
  ∧ DuoV2_steps [λ _, Got lone_page; λ _, Got lone_page]
      (DuoV2_init "items" (Some record_call) (Some (VInt 50)) None (Some 1000)) []
    = (DuoV2_init "items" (Some record_call) (Some (VInt 50)) None (Some 1000), []).
Proof.
  split; [reflexivity|].
  apply DuoV2_without_offset_repeats_itself.
  repeat constructor; by intros request resp [= <-].
Defined.

(** ** The checkpoint store *)

(** X9.  Loading after saving gives back exactly what was saved; saving
    under one log type leaves what is loaded for a log type with another
    key as it was; of two saves under one log type the later wins; and
    what is loaded when nothing was saved is the default, with a
    min_time and a next_offset that are both [None]. *)
Theorem checkpoint_round_trip :
  ∀ (lt : LogType) (offset : kwargs) (w : world),
    load_checkpoint lt (save_checkpoint lt offset w) = offset
    ∧ (∀ lt', log_type_value lt' ≠ log_type_value lt →
              load_checkpoint lt' (save_checkpoint lt offset w) = load_checkpoint lt' w)
    ∧ (∀ earlier,
         context (save_checkpoint lt offset (save_checkpoint lt earlier w))
         = context (save_checkpoint lt offset w))
    ∧ (context w !! log_type_value lt = None →
       load_checkpoint lt w !! "min_time" = Some VNone
       ∧ load_checkpoint lt w !! "next_offset" = Some VNone).
Proof.
  intros lt offset w. unfold load_checkpoint. simpl.
  split; [by rewrite lookup_insert_eq|]. split; [|split].
  - intros lt' Hkey. by rewrite lookup_insert_ne.
  - intros earlier. apply insert_insert_eq.
  - intros ->. by simplify_map_eq.
Qed.

Lemma checkpoint_round_trip_witness :
  log_type_value TELEPHONY ≠ log_type_value ADMINISTRATION
  ∧ load_checkpoint TELEPHONY
      (save_checkpoint ADMINISTRATION {[ "min_time" := VInt 102 ]} resumed)
    = {[ "min_time" := VInt 50; "next_offset" := VNone ]}
  ∧ load_checkpoint ADMINISTRATION
      (save_checkpoint ADMINISTRATION {[ "min_time" := VInt 102 ]} resumed)
    = {[ "min_time" := VInt 102 ]}.
Proof.
  assert (H : log_type_value TELEPHONY ≠ log_type_value ADMINISTRATION) by done.
  destruct (checkpoint_round_trip ADMINISTRATION {[ "min_time" := VInt 102 ]} resumed)
    as (Hsame & Hother & _).
  split; [exact H|]. split; [|exact Hsame].
  rewrite (Hother TELEPHONY H). reflexivity.
Defined.

Lemma get_events_iterator_context (env : environment) (lt : LogType) (w w' : world) :
  context w = context w' →
  get_events_iterator env lt w = get_events_iterator env lt w'.
Proof.
  intros H. unfold get_events_iterator, load_checkpoint. by rewrite H.
Qed.

(** After a step of a time-cursor iterator that saves with
    [save_checkpoint], the store holds the cursor, or nothing changed. *)
Lemma DuoV1_next_saved (lt : LogType) (func : Z → called (list event))
    (it : DuoV1LogsIterator world) (w : world) :
  v1_callback it = Some (save_checkpoint lt) →
  ((DuoV1_next func it w).1.2 = it ∧ context (DuoV1_next func it w).2 = context w)
  ∨ context (DuoV1_next func it w).2
    = <[ log_type_value lt
         := {[ "min_time" := VInt (v1_min_time (DuoV1_next func it w).1.2) ]} ]>
        (context w).
Proof.
  intros Hcb. unfold DuoV1_next.
  destruct (func _) as [events|err]; [|by left].
  cbv zeta. destruct (last _) as [e|]; [|by left].
  right. simpl. by rewrite Hcb.
Qed.

Lemma DuoV2_next_saved (lt : LogType) (func : kwargs → called response)
    (it : DuoV2LogsIterator world) (w : world) :
  v2_callback it = Some (save_checkpoint lt) →
  ((DuoV2_next func it w).1.2 = it ∧ context (DuoV2_next func it w).2 = context w)
  ∨ (truthy (v2_next_offset (DuoV2_next func it w).1.2) = true
     ∧ v2_limit (DuoV2_next func it w).1.2 = v2_limit it
     ∧ context (DuoV2_next func it w).2
       = <[ log_type_value lt
            := {[ "next_offset" := v2_next_offset (DuoV2_next func it w).1.2 ]} ]>
           (context w)).
Proof.
  intros Hcb. unfold DuoV2_next.
  destruct (func _) as [resp|err]; [|by left].
  cbv zeta.
  destruct (truthy _) eqn:Htruthy, (resp_lists resp !! ITEMS_FIELD it) as [events|];
    try destruct (len events =? 0); simpl; rewrite ?Hcb; simpl; auto.
Qed.

Lemma DuoV1_init_cursor {St : Type} (m limit : Z) (callback : option (Callback St)) :
  v1_min_time (DuoV1_init (Some m) limit callback) = m.
Proof. simpl. destruct (Z.eqb_spec m 0); simpl; lia. Qed.

Lemma forward_page_context (env : environment) (lt : LogType)
    (events : list event) (w : world) :
  context (world_of (forward_page env lt events w)) = context w.
Proof.
  unfold forward_page. cbv zeta.
  destruct (0 <? len (map (dumps env) (map (tag lt) events)));
    [destruct (push_events_to_intakes env _ _)|];
    try destruct (0 <? _); done.
Qed.

(** X10.  A restart resumes where the iterator stood.  The iterator that
    [get_events_iterator] builds is resumable; it stays so after every
    call of [__next__], whether the call returned a page, raised
    [StopIteration] or failed, and after the forwarding of every page: at
    each of these moments the iterator built afresh from the checkpoint
    store is about to make the very request the running iterator is about
    to make. *)
Theorem restart_resumes_the_iterator :
  (∀ (env : environment) (lt : LogType) (w : world),
     resumable env lt (get_events_iterator env lt w) w)
  ∧ (∀ (env : environment) (lt : LogType) (iterator : events_iterator) (w : world),
       resumable env lt iterator w →
       resumable env lt (iterator_next env lt iterator w).1.2
                 (iterator_next env lt iterator w).2)
  ∧ (∀ (env : environment) (lt : LogType) (iterator : events_iterator) (w : world)
       (events : list event),
       resumable env lt iterator w →
       resumable env lt iterator (world_of (forward_page env lt events w))).
Proof.
  split; [|split].
  - intros env lt w. split; [apply get_events_iterator_callback|].
    split; [done|]. by destruct lt.
  - intros env lt iterator w (Hcb & Hreq & Hclass).
    destruct lt, iterator as [it|it|it|it]; try done; simpl in Hcb |- *.
    + pose proof (DuoV1_next_saved ADMINISTRATION
                    (get_administrator_log env (calls w)) it
                    (outside env (ACall ADMINISTRATION
                                    {[ "mintime" := VInt (v1_min_time it) ]}) w) Hcb) as Hs.
      pose proof (DuoV1_next_world (get_administrator_log env (calls w)) it
                    (outside env (ACall ADMINISTRATION
                                    {[ "mintime" := VInt (v1_min_time it) ]}) w)) as Hw.
      destruct (DuoV1_next _ it _) as [[r it'] w2]. simpl in *.
      destruct Hw as (_ & _ & _ & Hcb'); [rewrite Hcb; apply saves_only_save_checkpoint|].
      unfold resumable; simpl. split; [by rewrite Hcb'|]. split; [|done].
      destruct Hs as [[-> Hsame] | Hsaved].
      * rewrite <- Hreq. unfold load_checkpoint. by rewrite Hsame.
      * unfold load_checkpoint. rewrite Hsaved, lookup_insert_eq. simpl.
        rewrite lookup_singleton_eq. simpl.
        by destruct (Z.eqb_spec (v1_min_time it') 0) as [-> |].
    + pose proof (DuoV2_next_saved AUTHENTICATION
                    (get_authentication_log env (calls w)) it
                    (outside env (ACall AUTHENTICATION (DuoV2_request it)) w) Hcb) as Hs.
      pose proof (DuoV2_next_fields (get_authentication_log env (calls w)) it
                    (outside env (ACall AUTHENTICATION (DuoV2_request it)) w))
        as (_ & _ & Hl & Hcb' & _).
      destruct (DuoV2_next _ it _) as [[r it'] w2]. simpl in *.
      unfold resumable; simpl. split; [by rewrite Hcb'|]. split; [|by rewrite Hl].
      destruct Hs as [[-> Hsame] | (Htruthy & Hlimit & Hsaved)].
      * rewrite <- Hreq. unfold load_checkpoint. by rewrite Hsame.
      * unfold load_checkpoint. rewrite Hsaved, lookup_insert_eq. simpl.
        rewrite lookup_singleton_eq. unfold DuoV2_request. simpl.
        by rewrite Htruthy, Hlimit, Hclass.
    + pose proof (DuoV2_next_saved TELEPHONY
                    (get_telephony_log env (calls w)) it
                    (outside env (ACall TELEPHONY (DuoV2_request it)) w) Hcb) as Hs.
      pose proof (DuoV2_next_fields (get_telephony_log env (calls w)) it
                    (outside env (ACall TELEPHONY (DuoV2_request it)) w))
        as (_ & _ & Hl & Hcb' & _).
      destruct (DuoV2_next _ it _) as [[r it'] w2]. simpl in *.
      unfold resumable; simpl. split; [by rewrite Hcb'|]. split; [|by rewrite Hl].
      destruct Hs as [[-> Hsame] | (Htruthy & Hlimit & Hsaved)].
      * rewrite <- Hreq. unfold load_checkpoint. by rewrite Hsame.
      * unfold load_checkpoint. rewrite Hsaved, lookup_insert_eq. simpl.
        rewrite lookup_singleton_eq. unfold DuoV2_request. simpl.
        by rewrite Htruthy, Hlimit, Hclass.
    + pose proof (DuoV1_next_saved OFFLINE
                    (get_offline_log env (calls w)) it
                    (outside env (ACall OFFLINE
                                    {[ "mintime" := VInt (v1_min_time it) ]}) w) Hcb) as Hs.
      pose proof (DuoV1_next_world (get_offline_log env (calls w)) it
                    (outside env (ACall OFFLINE
                                    {[ "mintime" := VInt (v1_min_time it) ]}) w)) as Hw.
      destruct (DuoV1_next _ it _) as [[r it'] w2]. simpl in *.
      destruct Hw as (_ & _ & _ & Hcb'); [rewrite Hcb; apply saves_only_save_checkpoint|].
      unfold resumable; simpl. split; [by rewrite Hcb'|]. split; [|done].
      destruct Hs as [[-> Hsame] | Hsaved].
      * rewrite <- Hreq. unfold load_checkpoint. by rewrite Hsame.
      * unfold load_checkpoint. rewrite Hsaved, lookup_insert_eq. simpl.
        rewrite lookup_singleton_eq. simpl.
        by destruct (Z.eqb_spec (v1_min_time it') 0) as [-> |].
  - intros env lt iterator w events (Hcb & Hreq & Hclass).
    split; [done|]. split; [|done].
    rewrite <- Hreq. f_equal.
    apply get_events_iterator_context, forward_page_context.
Qed.

Lemma restart_resumes_the_iterator_witness :
  resumable (trial page_then_more (λ _, 0%Q)) TELEPHONY
    (get_events_iterator (trial page_then_more (λ _, 0%Q)) TELEPHONY resumed) resumed
  ∧ resumable (trial page_then_more (λ _, 0%Q)) TELEPHONY
      (iterator_next (trial page_then_more (λ _, 0%Q)) TELEPHONY
         (get_events_iterator (trial page_then_more (λ _, 0%Q)) TELEPHONY resumed)
         resumed).1.2
      (iterator_next (trial page_then_more (λ _, 0%Q)) TELEPHONY
         (get_events_iterator (trial page_then_more (λ _, 0%Q)) TELEPHONY resumed)
         resumed).2.
Proof.
  destruct restart_resumes_the_iterator as (Hbuilt & Hstep & _).
  pose proof (Hbuilt (trial page_then_more (λ _, 0%Q)) TELEPHONY resumed) as H.
  split; [exact H|]. exact (Hstep _ _ _ _ H).
Defined.

(** ** What a pass leaves alone *)

Lemma after_pages_context (env : environment) (lt : LogType) (total : Z) (w : world) :
  context (after_pages env lt total w) = context w.
Proof. unfold after_pages. by destruct (total =? 0). Qed.

Lemma iterator_next_frame (env : environment) (lt : LogType)
    (iterator : events_iterator) (w : world) (key : string) :
  callback_of iterator = Some (save_checkpoint lt) →
  key ≠ log_type_value lt →
  context (iterator_next env lt iterator w).2 !! key = context w !! key.
Proof.
  intros Hcb Hkey.
  destruct iterator as [it|it|it|it]; simpl in Hcb |- *;
    match goal with
    | |- context [DuoV1_next ?f ?i ?x] =>
        pose proof (DuoV1_next_saved lt f i x Hcb) as Hs;
        destruct (DuoV1_next f i x) as [[r it'] w2]
    | |- context [DuoV2_next ?f ?i ?x] =>
        pose proof (DuoV2_next_saved lt f i x Hcb) as Hs;
        destruct (DuoV2_next f i x) as [[r it'] w2]
    end; simpl in *.
  - destruct Hs as [[_ ->] | ->]; [done|]. by rewrite lookup_insert_ne.
  - destruct Hs as [[_ ->] | (_ & _ & ->)]; [done|]. by rewrite lookup_insert_ne.
  - destruct Hs as [[_ ->] | (_ & _ & ->)]; [done|]. by rewrite lookup_insert_ne.
  - destruct Hs as [[_ ->] | ->]; [done|]. by rewrite lookup_insert_ne.
Qed.

Lemma for_pages_frame (env : environment) (lt : LogType) (key : string) (fuel : nat) :
  key ≠ log_type_value lt →
  ∀ (iterator : events_iterator) (total : Z) (w : world) (e : ended),
    callback_of iterator = Some (save_checkpoint lt) →
    for_pages fuel env lt iterator total w = Some e →
    context (world_of e) !! key = context w !! key.
Proof.
  intros Hkey. induction fuel as [|fuel IH]; intros iterator total w e Hcb; [done|].
  simpl.
  pose proof (iterator_next_frame env lt iterator w key Hcb Hkey) as Hframe.
  destruct (iterator_next_world env lt iterator w) as (_ & _ & _ & Hcb');
    [rewrite Hcb; apply saves_only_save_checkpoint|].
  destruct (iterator_next env lt iterator w) as [[r iterator'] w1].
  simpl in Hframe, Hcb'. rewrite Hcb in Hcb'.
  destruct r as [events| |err].
  - pose proof (forward_page_context env lt events w1) as Hfw.
    destruct (forward_page env lt events w1) as [w2|err w2]; simpl in Hfw.
    + intros Hrest. rewrite (IH _ _ _ _ Hcb' Hrest). by rewrite Hfw.
    + intros [= <-]. simpl. by rewrite Hfw.
  - intros [= <-]. simpl. by rewrite after_pages_context.
  - by intros [= <-].
Qed.

(** X11.  A worker keeps to its own checkpoint: whatever a pass of
    [fetch_batches] does, and whatever a whole [run] does until it ends,
    the entries of the checkpoint store under every other key than the
    value of the worker's log type are left as they were. *)
Theorem worker_keeps_to_its_checkpoint :
  ∀ (env : environment) (lt : LogType) (key : string),
    key ≠ log_type_value lt →
    (∀ (fuel : nat) (w : world) (e : ended),
       fetch_batches fuel env lt w = Some e →
       context (world_of e) !! key = context w !! key)
    ∧ (∀ (fuel : nat) (w w' : world),
         run fuel env lt w = Some w' →
         context w' !! key = context w !! key).
Proof.
  intros env lt key Hkey.
  assert (Hpass : ∀ fuel w e, fetch_batches fuel env lt w = Some e →
                              context (world_of e) !! key = context w !! key).
  { intros fuel w e Hfb.
    apply (for_pages_frame env lt key fuel Hkey _ _ _ _
             (get_events_iterator_callback env lt w) Hfb). }
  split; [exact Hpass|].
  induction fuel as [|fuel IH]; intros w w'; [done|].
  simpl. destruct (is_set env (calls w)); simpl; [by intros [= <-]|].
  destruct (fetch_batches fuel env lt _) as [[w2|err w2]|] eqn:Hfb; [| |done].
  - intros Hrun. pose proof (Hpass _ _ _ Hfb) as Hsame. simpl in Hsame.
    by rewrite (IH _ _ Hrun), Hsame.
  - intros [= <-]. pose proof (Hpass _ _ _ Hfb) as Hsame. simpl in Hsame |- *.
    by rewrite Hsame.
Qed.

Lemma worker_keeps_to_its_checkpoint_witness :
  "telephony" ≠ log_type_value ADMINISTRATION
  ∧ ∃ w', run 5 refusing ADMINISTRATION resumed = Some w'
          ∧ context w' !! "telephony"
            = Some {[ "min_time" := VInt 50; "next_offset" := VNone ]}
          ∧ context w' !! "administration" = Some {[ "min_time" := VInt 102 ]}.
Proof.
  assert (H : "telephony" ≠ log_type_value ADMINISTRATION) by done.
  split; [exact H|].
  destruct (run 5 refusing ADMINISTRATION resumed) as [w'|] eqn:Hrun;
    [|by vm_compute in Hrun].
  exists w'. split; [done|]. split.
  - rewrite (proj2 (worker_keeps_to_its_checkpoint refusing ADMINISTRATION
                      "telephony" H) 5%nat resumed w' Hrun).
    reflexivity.
  - vm_compute in Hrun. injection Hrun as <-. reflexivity.
Defined.

(** ** What a worker pushes, and when it idles *)

Lemma forward_page_actions (P : action → Prop) (env : environment) (lt : LogType)
    (events : list event) (w : world) :
  holds_of_worker_actions P →
  ∃ added,
    trace (world_of (forward_page env lt events w)) = trace w ++ added
    ∧ Forall P added.
Proof.
  intros (_ & _ & Hpush & Hlog & _ & Hsleep & Hmetric).
  unfold forward_page. cbv zeta.
  destruct (0 <? len (map (dumps env) (map (tag lt) events))) eqn:Hlen.
  - assert (Hne : map (dumps env) (map (tag lt) events) ≠ []).
    { intros Hnil. rewrite Hnil in Hlen. done. }
    clear Hlen. simpl calls.
    destruct (push_events_to_intakes env (calls w) _) as [ids|err];
      [destruct (0 <? _)|]; eexists; flatten_trace;
      (split; [reflexivity|]); repeat constructor; auto.
  - clear Hlen. destruct (0 <? _); eexists; flatten_trace;
      (split; [reflexivity|]); repeat constructor; auto.
Qed.

Lemma for_pages_actions (P : action → Prop) (env : environment) (lt : LogType)
    (fuel : nat) :
  holds_of_worker_actions P →
  ∀ (iterator : events_iterator) (total : Z) (w : world) (e : ended),
    saves_only (callback_of iterator) →
    for_pages fuel env lt iterator total w = Some e →
    ∃ added, trace (world_of e) = trace w ++ added ∧ Forall P added.
Proof.
  intros HP. induction fuel as [|fuel IH]; intros iterator total w e Hcb; [done|].
  simpl.
  destruct (iterator_next_world env lt iterator w Hcb) as (Htr & _ & _ & Hcb').
  destruct (iterator_next env lt iterator w) as [[r iterator'] w1].
  simpl in Htr, Hcb'.
  assert (Hcall : P (ACall lt (next_request iterator))) by apply HP.
  destruct r as [events| |err].
  - destruct (forward_page_actions P env lt events w1 HP) as (added & Hadd & Hall).
    destruct (forward_page env lt events w1) as [w2|err w2]; simpl in Hadd.
    + intros Hrest.
      destruct (IH iterator' _ w2 e ltac:(by rewrite Hcb') Hrest)
        as (added' & Hadd' & Hall').
      exists (ACall lt (next_request iterator) :: added ++ added').
      split; [|constructor; [done|by apply Forall_app]].
      rewrite Hadd', Hadd, Htr. by rewrite <- !app_assoc.
    + intros [= <-]. simpl.
      exists (ACall lt (next_request iterator) :: added).
      split; [|by constructor].
      rewrite Hadd, Htr. by rewrite <- app_assoc.
  - intros [= <-]. simpl. unfold after_pages.
    destruct (total =? 0).
    + eexists. flatten_trace. rewrite Htr. rewrite <- app_assoc.
      split; [reflexivity|]. repeat constructor; [done|apply HP..].
    + exists [ACall lt (next_request iterator)]. split; [done|by constructor].
  - intros [= <-]. simpl.
    exists [ACall lt (next_request iterator)]. split; [done|by constructor].
Qed.

Lemma run_actions (P : action → Prop) (env : environment) (lt : LogType)
    (fuel : nat) :
  holds_of_worker_actions P →
  ∀ w w' : world,
    run fuel env lt w = Some w' →
    ∃ added, trace w' = trace w ++ added ∧ Forall P added.
Proof.
  intros HP. induction fuel as [|fuel IH]; intros w w'; [done|].
  simpl. destruct (is_set env (calls w)) eqn:Hset; simpl.
  - intros [= <-]. exists [AIsSet true]. split; [done|].
    constructor; [apply HP|constructor].
  - destruct (fetch_batches fuel env lt _) as [[w2|err w2]|] eqn:Hfb; [| |done].
    + intros Hrun.
      destruct (for_pages_actions P env lt fuel HP _ _ _ _
                  (get_events_iterator_saves_only env lt _) Hfb)
        as (added & Hadd & Hall).
      destruct (IH w2 w' Hrun) as (added' & Hadd' & Hall').
      exists (AIsSet false :: added ++ added'). split.
      * rewrite Hadd'. simpl in Hadd. rewrite Hadd. simpl.
        by rewrite <- !app_assoc.
      * constructor; [apply HP|by apply Forall_app].
    + intros [= <-].
      destruct (for_pages_actions P env lt fuel HP _ _ _ _
                  (get_events_iterator_saves_only env lt _) Hfb)
        as (added & Hadd & Hall).
      exists (AIsSet false :: added ++ [ALogException err (failure_message lt)]).
      split.
      * simpl in Hadd |- *. rewrite Hadd. simpl. by rewrite <- !app_assoc.
      * constructor; [apply HP|]. apply Forall_app. split; [done|].
        constructor; [apply HP|constructor].
Qed.

(** X12.  The intake is never handed an empty batch: in whatever a run
    did by the time it ends, every batch pushed holds at least one
    serialized event. *)
Theorem never_pushes_an_empty_batch :
  ∀ (fuel : nat) (env : environment) (lt : LogType) (w w' : world),
    run fuel env lt w = Some w' →
    ∃ added,
      trace w' = trace w ++ added
      ∧ Forall (λ batch, batch ≠ []) (pushed added).
Proof.
  intros fuel env lt w w' Hrun.
  destruct (run_actions (λ a, a ≠ APush []) env lt fuel) with (w := w) (w' := w')
    as (added & Hadd & Hall); [|done|].
  { repeat split; try done. intros batch Hne [= ->]. done. }
  exists added. split; [done|].
  clear Hadd. induction Hall as [|a rest Ha Hrest IH]; [constructor|].
  unfold pushed in *. simpl. destruct a; simpl; try done.
  constructor; [|done]. intros ->. done.
Qed.

Lemma never_pushes_an_empty_batch_witness :
  ∃ w', run 5 refusing ADMINISTRATION fresh = Some w'
        ∧ ∃ added, trace w' = trace fresh ++ added
                   ∧ Forall (λ batch, batch ≠ []) (pushed added).
Proof.
  destruct (run 5 refusing ADMINISTRATION fresh) as [w'|] eqn:Hrun;
    [|by vm_compute in Hrun].
  exists w'. split; [done|].
  exact (never_pushes_an_empty_batch 5%nat refusing ADMINISTRATION fresh w' Hrun).
Defined.
